(** * analyze_latency.py: YCSB dynamic-load latency analysis

    A shallow embedding of [src/analyze_latency.py] and the properties of
    its extraction, aggregation and orchestration code.

    Conventions of the embedding.
    - A Python [str] is a [list ascii]; a character stands for the code
      point U+0000..U+00FF with the same number.  On that range the
      classes of Python's [re] for [str] patterns are the ones spelled out
      in [is_digit], [is_space] and [is_word] below.
    - A Python [int] is a [Z]; a Python [float] is an IEEE-754 binary64
      value, a [spec_float] handled with precision 53 and [emax = 1024].
    - Exceptions, printing, sleeping, the sub-process and the files are
      explicit: a state-and-exception monad over a trace of events. *)

From Stdlib Require Import ZArith List Ascii String Bool Lia Permutation Sorted.
From Stdlib Require Import Floats.SpecFloat.
From stdpp Require Import gmap strings.
Import ListNotations.

Local Open Scope Z_scope.
Local Open Scope list_scope.

(** ** Strings and character classes *)

Abbreviation str := (list ascii).

Definition lit (s : string) : str := list_ascii_of_string s.

Definition code (c : ascii) : nat := nat_of_ascii c.

Definition in_range (lo hi : nat) (c : ascii) : bool :=
  (lo <=? code c)%nat && (code c <=? hi)%nat.

(** [\d] of a [str] pattern: the decimal digits (category Nd). *)
Definition is_digit (c : ascii) : bool := in_range 48 57 c.

(** [\s] of a [str] pattern: [str.isspace] characters. *)
Definition is_space (c : ascii) : bool :=
  in_range 9 13 c || in_range 28 32 c
  || (code c =? 133)%nat || (code c =? 160)%nat.

(** [\w] of a [str] pattern: alphanumeric characters and the underscore. *)
Definition is_word (c : ascii) : bool :=
  in_range 48 57 c || in_range 65 90 c || in_range 97 122 c
  || (code c =? 95)%nat
  || (code c =? 170)%nat || in_range 178 179 c || (code c =? 181)%nat
  || in_range 185 186 c || in_range 188 190 c
  || in_range 192 214 c || in_range 216 246 c || in_range 248 255 c.

(** [[\d.]] *)
Definition is_digit_or_dot (c : ascii) : bool :=
  is_digit c || Ascii.eqb c "."%char.

(** ** The fragment of [re] used by the two patterns

    Literal characters, a greedy starred class, and a capturing group
    around a greedy class repeated at least once.  Matching backtracks the
    way [re] does: a repetition first takes as many characters as it can
    and gives them back one at a time while the rest of the pattern fails. *)

Inductive atom :=
| Chr (c : ascii)
| Star (p : ascii -> bool)
| GroupPlus (p : ascii -> bool).

Definition pattern := list atom.

Definition groups := list str.

Section Rep.
Context {R : Type}.
Variable p : ascii -> bool.
Variable k : str -> str -> option R.

(** Greedy repetition of the class [p]: [taken] is what the repetition
    holds so far, [k] is the rest of the match. *)
Fixpoint rep (taken : str) (s : str) : option R :=
  match s with
  | x :: s' =>
      if p x then
        match rep (taken ++ [x]) s' with
        | Some r => Some r
        | None => k taken s
        end
      else k taken s
  | [] => k taken []
  end.
End Rep.

(** One attempt at the start of [s]: the captured groups and the text left
    after the match. *)
Fixpoint match_here (pat : pattern) (s : str) : option (groups * str) :=
  match pat with
  | [] => Some ([], s)
  | Chr c :: pat' =>
      match s with
      | x :: s' => if Ascii.eqb x c then match_here pat' s' else None
      | [] => None
      end
  | Star p :: pat' => rep p (fun _ rest => match_here pat' rest) [] s
  | GroupPlus p :: pat' =>
      rep p (fun taken rest =>
               match taken with
               | [] => None
               | _ :: _ =>
                   match match_here pat' rest with
                   | Some (gs, rest') => Some (taken :: gs, rest')
                   | None => None
                   end
               end) [] s
  end.

(** [re.finditer]: scan from left to right; after a match the scan resumes
    where the match ended ([skip] counts the characters of the last match
    that are still to be passed).  Each match is reported with its start
    offset.  The patterns below start with a literal, so no match is
    empty and none starts at the end of the text. *)
Fixpoint finditer_from (pat : pattern) (skip pos : nat) (s : str)
  : list (nat * groups) :=
  match s with
  | [] => []
  | _ :: s' =>
      match skip with
      | S n => finditer_from pat n (S pos) s'
      | O =>
          match match_here pat s with
          | Some (gs, rest) =>
              (pos, gs)
                :: finditer_from pat (length s - length rest - 1) (S pos) s'
          | None => finditer_from pat 0 (S pos) s'
          end
      end
  end.

Definition finditer (pat : pattern) (s : str) : list (nat * groups) :=
  finditer_from pat 0 0 s.

(** [re.findall]: the groups of the successive matches. *)
Definition findall (pat : pattern) (s : str) : list groups :=
  map snd (finditer pat s).

Definition lits (s : string) : pattern := map Chr (lit s).

(** [r'\[UPDATE\],\s*(\d+),\s*([\d.]+)'] *)
Definition update_pattern : pattern :=
  lits "[UPDATE]," ++
  [Star is_space; GroupPlus is_digit; Chr ","; Star is_space;
   GroupPlus is_digit_or_dot].

(** [r'Phase:\s*(\w+),\s*Throughput:\s*([\d.]+)\s*ops/sec,\s*Elapsed:\s*(\d+)ms'] *)
Definition phase_pattern : pattern :=
  lits "Phase:" ++ [Star is_space; GroupPlus is_word; Chr ","; Star is_space] ++
  lits "Throughput:" ++ [Star is_space; GroupPlus is_digit_or_dot; Star is_space] ++
  lits "ops/sec," ++ [Star is_space] ++
  lits "Elapsed:" ++ [Star is_space; GroupPlus is_digit] ++ lits "ms".

Definition nl : ascii := ascii_of_nat 10.

(** ** Exceptions *)

Inductive exn :=
| ValueError
| TimeoutExpired
| OtherException (what : string)
| KeyboardInterrupt
| SystemExit (status : Z).

(** [isinstance(e, Exception)]: [KeyboardInterrupt] and [SystemExit] derive
    from [BaseException] only. *)
Definition is_Exception (e : exn) : bool :=
  match e with
  | KeyboardInterrupt | SystemExit _ => false
  | _ => true
  end.

Inductive res (A : Type) :=
| Ok (a : A)
| Err (e : exn).
Arguments Ok {A} a.
Arguments Err {A} e.

#[global] Instance res_ret : MRet res := fun _ a => Ok a.

#[global] Instance res_bind : MBind res := fun _ _ f r =>
  match r with
  | Ok a => f a
  | Err e => Err e
  end.

(** [try: body  except ValueError: handler] *)
Definition try_except_ValueError {A} (body handler : res A) : res A :=
  match body with
  | Err ValueError => handler
  | r => r
  end.

(** A [for] loop whose body updates the loop state and may raise. *)
Fixpoint for_each {A S} (l : list A) (body : A -> S -> res S) (s : S) : res S :=
  match l with
  | [] => Ok s
  | x :: l' =>
      match body x s with
      | Ok s' => for_each l' body s'
      | Err e => Err e
      end
  end.

(** ** [int()] and [float()] on strings *)

Fixpoint drop_while {A} (p : A -> bool) (l : list A) : list A :=
  match l with
  | x :: l' => if p x then drop_while p l' else l
  | [] => []
  end.

(** The whitespace that [int()] and [float()] ignore around the number:
    the ASCII blanks and the non-ASCII spaces; the separators U+001C..U+001F
    are not among them. *)
Definition is_blank (c : ascii) : bool :=
  in_range 9 13 c || (code c =? 32)%nat
  || (code c =? 133)%nat || (code c =? 160)%nat.

Definition strip (s : str) : str :=
  rev (drop_while is_blank (rev (drop_while is_blank s))).

Definition split_sign (s : str) : bool * str :=
  match s with
  | c :: s' =>
      if Ascii.eqb c "-"%char then (true, s')
      else if Ascii.eqb c "+"%char then (false, s')
      else (false, s)
  | [] => (false, [])
  end.

(** [(["_"] digit)*]: the digits taken (underscores dropped) and the rest. *)
Fixpoint digitpart_tail (s : str) : str * str :=
  match s with
  | c :: s' =>
      if is_digit c then
        let '(ds, r) := digitpart_tail s' in (c :: ds, r)
      else if Ascii.eqb c "_"%char then
        match s' with
        | d :: s'' =>
            if is_digit d then
              let '(ds, r) := digitpart_tail s'' in (d :: ds, r)
            else ([], s)
        | [] => ([], s)
        end
      else ([], s)
  | [] => ([], [])
  end.

(** [digitpart ::= digit (["_"] digit)*] *)
Definition digitpart (s : str) : option (str * str) :=
  match s with
  | c :: s' =>
      if is_digit c then
        let '(ds, r) := digitpart_tail s' in Some (c :: ds, r)
      else None
  | [] => None
  end.

Definition digit_value (c : ascii) : Z := Z.of_nat (code c) - 48.

Definition decimal_value (ds : str) : Z :=
  fold_left (fun acc c => 10 * acc + digit_value c) ds 0.

Section Conversions.
(** [sys.get_int_max_str_digits()]: 4300 by default since Python 3.11,
    [0] when the limit is disabled or does not exist. *)
Variable int_max_str_digits : nat.

(** [int(s)] in base 10. *)
Definition py_int (s : str) : res Z :=
  let '(neg, s1) := split_sign (strip s) in
  match digitpart s1 with
  | Some (ds, []) =>
      if (0 <? int_max_str_digits)%nat && (int_max_str_digits <? length ds)%nat
      then Err ValueError
      else Ok (if neg then - decimal_value ds else decimal_value ds)
  | _ => Err ValueError
  end.
End Conversions.

(** binary64 *)
Definition prec : Z := 53.
Definition emax : Z := 1024.

Abbreviation float := spec_float.

(** The binary64 value nearest to [m * 10 ^ e10] (ties to even), for [0 <= m]. *)
Definition float_of_decimal (m e10 : Z) : float :=
  if m =? 0 then S754_zero false
  else if 0 <=? e10 then binary_normalize prec emax (m * 10 ^ e10) 0 false
  else
    let '(q, e, l) := SFdiv_core_binary prec emax m 0 (10 ^ (- e10)) 0 in
    binary_round_aux prec emax false q e l.

Definition to_lower (c : ascii) : ascii :=
  if in_range 65 90 c then ascii_of_nat (code c + 32) else c.

Definition str_eqb (a b : str) : bool := bool_decide (a = b).

(** [exponent ::= ("e" | "E") [sign] digitpart], or nothing. *)
Definition parse_exponent (s : str) : option Z :=
  match s with
  | [] => Some 0
  | c :: s' =>
      if Ascii.eqb (to_lower c) "e"%char then
        let '(neg, s2) := split_sign s' in
        match digitpart s2 with
        | Some (ds, []) => Some (if neg then - decimal_value ds else decimal_value ds)
        | _ => None
        end
      else None
  end.

(** [[digitpart]]: an optional run of digits. *)
Definition opt_digitpart (s : str) : str * str :=
  match digitpart s with
  | Some (ds, r) => (ds, r)
  | None => ([], s)
  end.

(** [["." [digitpart]]]: an optional fraction. *)
Definition opt_fraction (s : str) : str * str :=
  match s with
  | c :: r => if Ascii.eqb c "."%char then opt_digitpart r else ([], s)
  | [] => ([], [])
  end.

(** [floatnumber ::= ([digitpart] "." digitpart | digitpart ["."]) [exponent]] *)
Definition parse_floatnumber (s : str) : option float :=
  let '(ip, r1) := opt_digitpart s in
  let '(fp, r2) := opt_fraction r1 in
  match ip ++ fp with
  | [] => None
  | _ :: _ =>
      match parse_exponent r2 with
      | Some e => Some (float_of_decimal (decimal_value (ip ++ fp)) (e - Z.of_nat (length fp)))
      | None => None
      end
  end.

(** [absfloatvalue ::= floatnumber | infinity | nan] *)
Definition parse_absfloat (s : str) : option float :=
  let low := map to_lower s in
  if str_eqb low (lit "inf") || str_eqb low (lit "infinity") then Some (S754_infinity false)
  else if str_eqb low (lit "nan") then Some S754_nan
  else parse_floatnumber s.

(** [float(s)] *)
Definition py_float (s : str) : res float :=
  let '(neg, s1) := split_sign (strip s) in
  match parse_absfloat s1 with
  | Some f => Ok (if neg then SFopp f else f)
  | None => Err ValueError
  end.

(** ** Points, phases and the two extraction functions *)

(** A time-series point [(timestamp, latency)]. *)
Abbreviation point := (Z * float)%type.

(** The dict built for one phase line. *)
Record phase := {
  name : str;
  throughput : float;
  elapsed : Z
}.

(** Python's [==] and [<] on floats. *)
Definition float_eq (x y : float) : bool := SFeqb x y.
Definition float_lt (x y : float) : bool := SFltb x y.

(** [<] on [(int, float)] tuples: the first components that differ decide. *)
Definition point_lt (a b : point) : bool :=
  if fst a =? fst b then
    if float_eq (snd a) (snd b) then false else float_lt (snd a) (snd b)
  else fst a <? fst b.

(** [sorted(l)]: a stable sort that compares with [<] only.  Where [<] is a
    strict weak order (no NaN among the latencies) every such sort returns
    this list. *)
Fixpoint insert_sorted {A} (lt : A -> A -> bool) (x : A) (l : list A) : list A :=
  match l with
  | [] => [x]
  | y :: l' => if lt y x then y :: insert_sorted lt x l' else x :: y :: l'
  end.

Definition sorted {A} (lt : A -> A -> bool) (l : list A) : list A :=
  fold_right (insert_sorted lt) [] l.

(** A [for] target that unpacks the tuple of groups of one match. *)
Definition unpack2 (g : groups) : res (str * str) :=
  match g with
  | [a; b] => Ok (a, b)
  | _ => Err ValueError
  end.

Definition unpack3 (g : groups) : res (str * str * str) :=
  match g with
  | [a; b; c] => Ok (a, b, c)
  | _ => Err ValueError
  end.

Section Extraction.
Variable int_max_str_digits : nat.

Definition extract_timeseries_data (output : str) : res (list point) :=
  let timeseries_data := [] in
  let matches := findall update_pattern output in
  timeseries_data ←
    for_each matches (fun m timeseries_data =>
      '(timestamp_str, latency_str) ← unpack2 m;
      try_except_ValueError
        (timestamp ← py_int int_max_str_digits timestamp_str;
         latency ← py_float latency_str;
         mret (timeseries_data ++ [(timestamp, latency)]))
        (mret timeseries_data))
      timeseries_data;
  mret (sorted point_lt timeseries_data).

Definition extract_phase_info (output : str) : res (list phase) :=
  let phases := [] in
  let matches := findall phase_pattern output in
  for_each matches (fun m phases =>
    '(phase_name, throughput_str, elapsed_str) ← unpack3 m;
    try_except_ValueError
      (throughput ← py_float throughput_str;
       elapsed ← py_int int_max_str_digits elapsed_str;
       mret (phases ++ [{| name := phase_name;
                           throughput := throughput;
                           elapsed := elapsed |}]))
      (mret phases))
    phases.
End Extraction.

(** ** Vocabulary of the statements about extraction *)

(** The classes of the capturing groups of a pattern, from left to right. *)
Fixpoint group_classes (pat : pattern) : list (ascii -> bool) :=
  match pat with
  | [] => []
  | GroupPlus p :: pat' => p :: group_classes pat'
  | _ :: pat' => group_classes pat'
  end.

Definition captured_by (p : ascii -> bool) (g : str) : Prop :=
  g <> [] /\ forallb p g = true.

(** The point a match contributes: none when a field does not convert. *)
Definition point_of_match (mx : nat) (g : groups) : option point :=
  match g with
  | [timestamp_str; latency_str] =>
      match py_int mx timestamp_str, py_float latency_str with
      | Ok timestamp, Ok latency => Some (timestamp, latency)
      | _, _ => None
      end
  | _ => None
  end.

Definition phase_of_match (mx : nat) (g : groups) : option phase :=
  match g with
  | [phase_name; throughput_str; elapsed_str] =>
      match py_float throughput_str, py_int mx elapsed_str with
      | Ok t, Ok e => Some {| name := phase_name; throughput := t; elapsed := e |}
      | _, _ => None
      end
  | _ => None
  end.

(** A float that is neither NaN nor carries a minus sign. *)
Definition float_nonneg (f : float) : Prop :=
  match f with
  | S754_zero false | S754_infinity false | S754_finite false _ _ => True
  | _ => False
  end.

Definition float_zero : float := S754_zero false.

(** Python's [<=] on floats. *)
Definition float_le (x y : float) : bool := SFleb x y.

(** Timestamps are compared first: the sorted list is ascending by timestamp. *)
Definition timestamp_le (a b : point) : Prop := fst a <= fst b.

(** ** The update pattern, step by step *)

Fixpoint span {A} (p : A -> bool) (s : list A) : list A * list A :=
  match s with
  | c :: s' => if p c then let '(a, b) := span p s' in (c :: a, b) else ([], s)
  | [] => ([], [])
  end.

Fixpoint strip_prefix (pre s : str) : option str :=
  match pre with
  | [] => Some s
  | c :: pre' =>
      match s with
      | x :: s' => if Ascii.eqb x c then strip_prefix pre' s' else None
      | [] => None
      end
  end.

(** What one attempt of [update_pattern] does, without backtracking: the
    classes that follow one another are disjoint, so the longest run is
    the only one that can succeed. *)
Definition update_match (s : str) : option (groups * str) :=
  match strip_prefix (lit "[UPDATE],") s with
  | None => None
  | Some s1 =>
      let '(ts, s3) := span is_digit (drop_while is_space s1) in
      match ts, s3 with
      | _ :: _, c :: s4 =>
          if Ascii.eqb c ","%char then
            let '(lat, s6) := span is_digit_or_dot (drop_while is_space s4) in
            match lat with
            | [] => None
            | _ :: _ => Some ([ts; lat], s6)
            end
          else None
      | _, _ => None
      end
  end.

(** ** Lines *)

(** ["\n".join(ls)] *)
Fixpoint join (ls : list str) : str :=
  match ls with
  | [] => []
  | [l] => l
  | l :: ls' => l ++ nl :: join ls'
  end.

(** [s.split("\n")] *)
Fixpoint lines (s : str) : list str :=
  match s with
  | [] => [[]]
  | c :: s' =>
      if Ascii.eqb c nl then [] :: lines s'
      else
        match lines s' with
        | l :: ls => (c :: l) :: ls
        | [] => [[c]]
        end
  end.

(** A digit field as it may open the next line. *)
Definition probe : str := lit "0,0".

(** The pattern matches the line from its first to its last character. *)
Definition line_groups (l : str) : option groups :=
  match match_here update_pattern l with
  | Some (gs, []) => Some gs
  | _ => None
  end.

(** No match starts in the line, whatever text follows it: not even a
    record left open at the end of the line, which a digit field at the
    start of the next line would complete. *)
Definition inert_line (l : str) : bool :=
  match findall update_pattern (l ++ nl :: probe) with
  | [] => true
  | _ :: _ => false
  end.

(** The point of a line that is a record with well-formed numeric fields. *)
Definition point_of_line (mx : nat) (l : str) : option point :=
  match line_groups l with
  | Some gs => point_of_match mx gs
  | None => None
  end.

Definition record_line (mx : nat) (l : str) : bool :=
  match point_of_line mx l with
  | Some _ => true
  | None => false
  end.

Definition count_record_lines (mx : nat) (text : str) : nat :=
  length (List.filter (record_line mx) (lines text)).

Definition findall_from (pat : pattern) (skip : nat) (s : str) : list groups :=
  map snd (finditer_from pat skip 0 s).

(** A line of the two kinds the scan handles line by line. *)
Definition plain_line (l : str) : bool :=
  match line_groups l with
  | Some _ => true
  | None => inert_line l
  end.

(** The property of a text that C1 asserts of every text. *)
Definition one_point_per_record_line (mx : nat) (text : str) : Prop :=
  exists data,
    extract_timeseries_data mx text = Ok data /\
    length data = count_record_lines mx text /\
    StronglySorted timestamp_le data.

Definition sample_block : str :=
  lit "[UPDATE], 20, 3.5" ++ nl :: lit "[UPDATE], Operations, 1000" ++ nl ::
  lit "[UPDATE], 10, 1.25" ++ nl :: lit "[UPDATE], 10, 0.1" ++ [nl].

(** ** binary64 arithmetic and the numpy reductions

    [np.mean] and [np.std] belong to numpy, not to the script.  They are
    written out here as numpy computes them on a one-dimensional float64
    array: [add.reduce] with pairwise summation, a division by the count,
    and for the deviation the mean of the squared differences from the
    mean, then the square root.  Every operation rounds to nearest, ties
    to even. *)

Definition b64_add : float -> float -> float := SFadd prec emax.
Definition b64_sub : float -> float -> float := SFsub prec emax.
Definition b64_mul : float -> float -> float := SFmul prec emax.
Definition b64_div : float -> float -> float := SFdiv prec emax.
Definition b64_sqrt : float -> float := SFsqrt prec emax.

(** The count of a reduction as a float64. *)
Definition float_of_nat (n : nat) : float :=
  binary_normalize prec emax (Z.of_nat n) 0 false.

(** [res = init; for x in l: res += x] *)
Definition add_all (init : float) (l : list float) : float :=
  fold_left b64_add l init.

Definition lanes : Type :=
  float * float * float * float * float * float * float * float.

Definition get (a : list float) (i : nat) : float := nth i a float_zero.

Definition load8 (a : list float) (i : nat) : lanes :=
  (get a i, get a (i + 1), get a (i + 2), get a (i + 3),
   get a (i + 4), get a (i + 5), get a (i + 6), get a (i + 7)).

Definition add8 (r x : lanes) : lanes :=
  let '(r0, r1, r2, r3, r4, r5, r6, r7) := r in
  let '(x0, x1, x2, x3, x4, x5, x6, x7) := x in
  (b64_add r0 x0, b64_add r1 x1, b64_add r2 x2, b64_add r3 x3,
   b64_add r4 x4, b64_add r5 x5, b64_add r6 x6, b64_add r7 x7).

Definition combine8 (r : lanes) : float :=
  let '(r0, r1, r2, r3, r4, r5, r6, r7) := r in
  b64_add (b64_add (b64_add r0 r1) (b64_add r2 r3))
          (b64_add (b64_add r4 r5) (b64_add r6 r7)).

(** [for (i = 8; i < n - n % 8; i += 8) r[j] += a[i + j]] *)
Fixpoint unrolled (blocks i : nat) (r : lanes) (a : list float) : lanes :=
  match blocks with
  | O => r
  | S b => unrolled b (i + 8) (add8 r (load8 a i)) a
  end.

(** numpy's pairwise summation of a contiguous float64 array: a plain loop
    below 8 elements, eight accumulators up to 128 elements, two halves
    above.  [fuel] bounds the depth of the halving; the length of the
    array is enough. *)
Fixpoint pairwise_sum (fuel : nat) (a : list float) : float :=
  let n := length a in
  if (n <? 8)%nat then add_all float_zero a
  else if (n <=? 128)%nat then
    let blocks := (n / 8 - 1)%nat in
    let r := unrolled blocks 8 (load8 a 0) a in
    add_all (combine8 r) (drop (8 * (blocks + 1)) a)
  else
    match fuel with
    | O => float_zero
    | S fuel' =>
        let n2 := (n / 2 - (n / 2) mod 8)%nat in
        b64_add (pairwise_sum fuel' (take n2 a)) (pairwise_sum fuel' (drop n2 a))
    end.

(** [np.add.reduce]: the identity, then the pairwise sum.  No summand here
    is a negative zero, so the sign of the zeros the sums start from
    plays no role. *)
Definition np_sum (a : list float) : float :=
  b64_add float_zero (pairwise_sum (length a) a).

(** [np.mean] of a list of floats. *)
Definition np_mean (a : list float) : float :=
  b64_div (np_sum a) (float_of_nat (length a)).

(** [np.std] of a list of floats ([ddof = 0]): the mean, the squared
    deviations from it, their mean, the square root. *)
Definition np_std (a : list float) : float :=
  let arrmean := np_mean a in
  let x := map (fun v => b64_sub v arrmean) a in
  let x := map (fun d => b64_mul d d) x in
  b64_sqrt (b64_div (np_sum x) (float_of_nat (length a))).

(** ** Aggregation over runs *)

(** An entry of [self.results]. *)
Record run_result := {
  run_id : Z;
  timeseries : list point;
  phases : list phase;
  timestamp : str
}.

(** [if timestamp not in d: d[timestamp] = []] then
    [d[timestamp].append(latency)] *)
Definition add_latency (d : gmap Z (list float)) (pt : point) : gmap Z (list float) :=
  let '(ts, latency) := pt in
  let d :=
    match d !! ts with
    | None => <[ts := []]> d
    | Some _ => d
    end in
  alter (fun l => l ++ [latency]) ts d.

Definition timestamp_latencies (results : list run_result) : gmap Z (list float) :=
  fold_left (fun d result => fold_left add_latency (timeseries result) d) results ∅.

(** The three lists that [plot_average_latency] hands to [plt.errorbar]:
    the timestamps, [avg_latencies] and [std_latencies]. *)
Definition average_latency (results : list run_result)
  : list Z * list float * list float :=
  let d := timestamp_latencies results in
  let timestamps := sorted Z.ltb (map fst (map_to_list d)) in
  (timestamps,
   map (fun ts => np_mean (d !!! ts)) timestamps,
   map (fun ts => np_std (d !!! ts)) timestamps).

(** The latencies that the runs report at one timestamp, in run order. *)
Definition latencies_at (ts : Z) (pts : list point) : list float :=
  omap (fun pt : point => if fst pt =? ts then Some (snd pt) else None) pts.

Definition contributions (ts : Z) (results : list run_result) : list float :=
  flat_map (fun r => latencies_at ts (timeseries r)) results.

Definition float_finite (f : float) : Prop :=
  match f with
  | S754_zero _ | S754_finite _ _ _ => True
  | _ => False
  end.

(** Strictly positive, possibly infinite. *)
Definition float_pos (f : float) : Prop :=
  match f with
  | S754_finite false _ _ | S754_infinity false => True
  | _ => False
  end.

Definition run_of (i : Z) (pts : list point) : run_result :=
  {| run_id := i; timeseries := pts; phases := []; timestamp := [] |}.

(** One tenth, as [float("0.1")] gives it. *)
Definition tenth : float := S754_finite false 7205759403792794 (-56).

Definition three_equal_runs : list run_result :=
  [run_of 1 [(0, tenth)]; run_of 2 [(0, tenth)]; run_of 3 [(0, tenth)]].

Definition two_equal_runs : list run_result :=
  [run_of 1 [(0, tenth)]; run_of 2 [(0, tenth)]].

(** ** The analyzer and its environment *)

(** What the program prints; the fields are the values formatted into the
    line. *)
Inductive message :=
| MsgRunning (test runs : Z)
| MsgFailed (test returncode : Z)
| MsgErrorOutput (stderr : str)
| MsgTimedOut (test : Z)
| MsgErrorRunning (test : Z) (e : exn)
| MsgStarting (runs : Z)
| MsgCompleted (test : Z) (data_points : nat)
| MsgNoSeries (test : Z)
| MsgWaiting
| MsgNoPlotData
| MsgPlotSaved (file : string)
| MsgAveragePlotSaved (file : string)
| MsgRawSaved (file : string)
| MsgNoSummaryData
| MsgSummaryHeader
| MsgRunStats (run : Z) (latencies : list float)
| MsgOverallStats (latencies : list float)
| MsgScriptNotFound (script : str)
| MsgInterrupted
| MsgAnalysisError (e : exn).

(** What the program does to the outside, in order. *)
Inductive event :=
| Print (m : message)
| RunScript (script : str)
| Sleep (seconds : Z)
| Chmod (path : str) (mode : Z)
| WriteJson (file : string) (data : list run_result)
| SaveRunsFigure (file : string) (series : list (Z * list point))
| SaveAverageFigure (file : string) (data : list Z * list float * list float)
| ShowFigure.

(** How a call of [subprocess.run] ends. *)
Inductive run_outcome :=
| Completed (returncode : Z) (stdout stderr : str)
| Raised (e : exn).

(** The environment answers from what has happened so far.  [print] and
    [time.sleep] return normally; an interrupt reaches the program while
    it waits for the script. *)
Record world := {
  path_exists : str -> bool;
  script_outcome : list event -> run_outcome;
  now_isoformat : list event -> str;
  io_error : list event -> event -> option exn
}.

Record state := {
  results : list run_result;
  trace : list event
}.

Definition M (A : Type) : Type := state -> res A * state.

#[global] Instance M_ret : MRet M := fun _ a s => (Ok a, s).

#[global] Instance M_bind : MBind M := fun _ _ f m s =>
  match m s with
  | (Ok a, s') => f a s'
  | (Err e, s') => (Err e, s')
  end.

Definition raise {A} (e : exn) : M A := fun s => (Err e, s).

Definition lift {A} (r : res A) : M A := fun s => (r, s).

Definition emit (ev : event) : M unit := fun s =>
  (Ok tt, {| results := results s; trace := trace s ++ [ev] |}).

Definition print (m : message) : M unit := emit (Print m).

(** A file or plotting call: it happens, or it raises. *)
Definition perform (w : world) (ev : event) : M unit := fun s =>
  match io_error w (trace s) ev with
  | Some e => (Err e, s)
  | None => emit ev s
  end.

Definition get_results : M (list run_result) := fun s => (Ok (results s), s).

Definition append_result (r : run_result) : M unit := fun s =>
  (Ok tt, {| results := results s ++ [r]; trace := trace s |}).

Definition now (w : world) : M str := fun s => (Ok (now_isoformat w (trace s)), s).

(** [try: body  except ...: handler]; [handler e = None] when no clause
    matches [e]. *)
Definition try_except {A} (body : M A) (handler : exn -> option (M A)) : M A :=
  fun s =>
    match body s with
    | (Ok a, s') => (Ok a, s')
    | (Err e, s') =>
        match handler e with
        | Some h => h s'
        | None => (Err e, s')
        end
    end.

(** [for x in l: body x] *)
Fixpoint for_M {A} (l : list A) (body : A -> M unit) : M unit :=
  match l with
  | [] => mret tt
  | x :: l' => body x;; for_M l' body
  end.

(** [range(n)] *)
Definition range (n : Z) : list Z := map Z.of_nat (seq 0 (Z.to_nat n)).

(** [subprocess.run([script], capture_output=True, text=True, timeout=300)] *)
Definition subprocess_run (w : world) (script : str) : M (Z * str * str) := fun s =>
  let s' := {| results := results s; trace := trace s ++ [RunScript script] |} in
  match script_outcome w (trace s) with
  | Completed rc out err => (Ok (rc, out, err), s')
  | Raised e => (Err e, s')
  end.

Section Analyzer.
Variable int_max_str_digits : nat.
Variable w : world.
(** [self.test_script] and [self.num_runs] *)
Variable test_script : str.
Variable num_runs : Z.

Definition run_single_test (run_id : Z) : M (option str) :=
  print (MsgRunning (run_id + 1) num_runs);;
  try_except
    ('(returncode, stdout, stderr) ← subprocess_run w test_script;
     if negb (returncode =? 0) then
       print (MsgFailed (run_id + 1) returncode);;
       print (MsgErrorOutput stderr);;
       mret None
     else mret (Some stdout))
    (fun e =>
       match e with
       | TimeoutExpired => Some (print (MsgTimedOut (run_id + 1));; mret None)
       | _ =>
           if is_Exception e
           then Some (print (MsgErrorRunning (run_id + 1) e);; mret None)
           else None
       end).

(** The body of the loop of [run_all_tests]. *)
Definition run_test (i : Z) : M unit :=
  output ← run_single_test i;
  match output with
  | None => mret tt
  | Some output =>
      timeseries_data ← lift (extract_timeseries_data int_max_str_digits output);
      phase_info ← lift (extract_phase_info int_max_str_digits output);
      match timeseries_data with
      | _ :: _ =>
          stamp ← now w;
          append_result {| run_id := i + 1;
                           timeseries := timeseries_data;
                           phases := phase_info;
                           timestamp := stamp |};;
          print (MsgCompleted (i + 1) (length timeseries_data))
      | [] => print (MsgNoSeries (i + 1))
      end;;
      if i <? num_runs - 1 then
        print MsgWaiting;;
        emit (Sleep 10)
      else mret tt
  end.

Definition run_all_tests : M unit :=
  print (MsgStarting num_runs);;
  for_M (range num_runs) run_test.

Definition all_latencies (rs : list run_result) : list float :=
  flat_map (fun r => map snd (timeseries r)) rs.

Definition nonempty_runs (rs : list run_result) : list run_result :=
  List.filter (fun r => match timeseries r with [] => false | _ :: _ => true end) rs.

Definition plot_latency_over_time (save_file : string) : M unit :=
  rs ← get_results;
  match rs with
  | [] => print MsgNoPlotData
  | _ :: _ =>
      perform w (SaveRunsFigure save_file
                   (map (fun r => (run_id r, timeseries r)) (nonempty_runs rs)));;
      print (MsgPlotSaved save_file);;
      perform w ShowFigure
  end.

Definition plot_average_latency (save_file : string) : M unit :=
  rs ← get_results;
  match rs with
  | [] => print MsgNoPlotData
  | _ :: _ =>
      perform w (SaveAverageFigure save_file (average_latency rs));;
      print (MsgAveragePlotSaved save_file);;
      perform w ShowFigure
  end.

Definition save_raw_data (save_file : string) : M unit :=
  rs ← get_results;
  perform w (WriteJson save_file rs);;
  print (MsgRawSaved save_file).

Definition print_summary : M unit :=
  rs ← get_results;
  match rs with
  | [] => print MsgNoSummaryData
  | _ :: _ =>
      print MsgSummaryHeader;;
      for_M (nonempty_runs rs)
        (fun r => print (MsgRunStats (run_id r) (map snd (timeseries r))));;
      match all_latencies rs with
      | [] => mret tt
      | _ :: _ => print (MsgOverallStats (all_latencies rs))
      end
  end.
End Analyzer.

(** The parsed command line. *)
Record arguments := {
  runs : Z;
  script : str;
  no_plot : bool
}.

(** [YCSBLatencyAnalyzer.__init__]: no result yet. *)
Definition init_state (tr : list event) : state := {| results := []; trace := tr |}.

Definition new_analyzer : M unit := fun s => (Ok tt, init_state (trace s)).

Definition main (mx : nat) (w : world) (args : arguments) : M unit :=
  if negb (path_exists w (script args)) then
    print (MsgScriptNotFound (script args));;
    raise (SystemExit 1)
  else
    perform w (Chmod (script args) 493);;
    new_analyzer;;
    try_except
      (run_all_tests mx w (script args) (runs args);;
       save_raw_data w "latency_data.json";;
       print_summary;;
       if negb (no_plot args) then
         plot_latency_over_time w "latency_analysis.png";;
         plot_average_latency w "average_latency.png"
       else mret tt)
      (fun e =>
         match e with
         | KeyboardInterrupt => Some (print MsgInterrupted;; raise (SystemExit 1))
         | _ =>
             if is_Exception e
             then Some (print (MsgAnalysisError e);; raise (SystemExit 1))
             else None
         end).

(** The exit status of the process that runs [main]. *)
Definition exit_status (r : res unit) : Z :=
  match r with
  | Ok _ => 0
  | Err (SystemExit status) => status
  | Err _ => 1
  end.

(** ** Vocabulary of the statements about runs *)

Definition with_trace (s : state) (evs : list event) : state :=
  {| results := results s; trace := trace s ++ evs |}.

(** What is printed when the call of the script does not give an output. *)
Definition failure_log (test : Z) (o : run_outcome) : list event :=
  match o with
  | Completed rc _ err => [Print (MsgFailed test rc); Print (MsgErrorOutput err)]
  | Raised TimeoutExpired => [Print (MsgTimedOut test)]
  | Raised e => [Print (MsgErrorRunning test e)]
  end.

(** The run gives no output and the program goes on. *)
Definition run_fails (o : run_outcome) : bool :=
  match o with
  | Completed rc _ _ => negb (rc =? 0)
  | Raised e => is_Exception e
  end.

(** The wait after a run that is not the last one. *)
Definition delay (i n : Z) : list event :=
  if i <? n - 1 then [Print MsgWaiting; Sleep 10] else [].

Definition points_of (mx : nat) (output : str) : list point :=
  sorted point_lt (omap (point_of_match mx) (findall update_pattern output)).

Definition phases_of (mx : nat) (output : str) : list phase :=
  omap (phase_of_match mx) (findall phase_pattern output).

Definition results_upto (b : Z) (rs : list run_result) : Prop :=
  Forall (fun r => timeseries r <> [] /\ 1 <= run_id r <= b) rs /\
  StronglySorted Z.lt (map run_id rs).

(** ** Sample environments *)

Definition is_run (ev : event) : bool :=
  match ev with
  | RunScript _ => true
  | _ => false
  end.

(** The script ends the way the list says, call after call; files and
    figures can be written. *)
Definition scripted_world (outcomes : list run_outcome) : world :=
  {| path_exists := fun _ => true;
     script_outcome := fun tr =>
       nth (length (List.filter is_run tr)) outcomes (Raised TimeoutExpired);
     now_isoformat := fun _ => lit "2025-01-01T00:00:00";
     io_error := fun _ _ => None |}.

(** No file exists. *)
Definition empty_world : world :=
  {| path_exists := fun _ => false;
     script_outcome := fun _ => Raised (OtherException "FileNotFoundError");
     now_isoformat := fun _ => [];
     io_error := fun _ _ => None |}.

Definition test_sh : str := lit "./test.sh".

(** A marker at the end of one line, the fields on the next. *)
Definition split_record : str := lit "[UPDATE]," ++ nl :: lit "5, 3.0".

Definition no_match_in (l : str) : bool :=
  match findall update_pattern l with
  | [] => true
  | _ :: _ => false
  end.

Definition overall_line : str := lit "[OVERALL], RunTime(ms), 1000".

Definition default_arguments : arguments :=
  {| runs := 4; script := test_sh; no_plot := false |}.

Definition one_record (latency : string) : str := lit "[UPDATE], 0, " ++ lit latency.

(** ** Vocabulary of the statements about effects *)

(** The number of events of one kind in a trace. *)
Definition count_events (p : event -> bool) (tr : list event) : nat :=
  length (List.filter p tr).

Definition is_sleep (ev : event) : bool :=
  match ev with
  | Sleep _ => true
  | _ => false
  end.

Definition is_figure (ev : event) : bool :=
  match ev with
  | SaveRunsFigure _ _ | SaveAverageFigure _ _ | ShowFigure => true
  | _ => false
  end.

Definition is_write (ev : event) : bool :=
  match ev with
  | WriteJson _ _ => true
  | _ => false
  end.

(** What a run may do to the outside: print, call the script, wait ten
    seconds. *)
Definition run_event (script : str) (ev : event) : Prop :=
  match ev with
  | Print _ => True
  | RunScript s => s = script
  | Sleep seconds => seconds = 10
  | _ => False
  end.

(** Whatever the state, the action only appends events, all of them in [P]. *)
Definition adds {A} (P : event -> Prop) (m : M A) : Prop :=
  forall s, exists evs, trace (snd (m s)) = trace s ++ evs /\ Forall P evs.

(** The [try] block of [main] and its [except] clauses. *)
Definition analysis (mx : nat) (w : world) (args : arguments) : M unit :=
  run_all_tests mx w (script args) (runs args);;
  save_raw_data w "latency_data.json";;
  print_summary;;
  if negb (no_plot args) then
    plot_latency_over_time w "latency_analysis.png";;
    plot_average_latency w "average_latency.png"
  else mret tt.

Definition on_exception (e : exn) : option (M unit) :=
  match e with
  | KeyboardInterrupt => Some (print MsgInterrupted;; raise (SystemExit 1))
  | _ =>
      if is_Exception e
      then Some (print (MsgAnalysisError e);; raise (SystemExit 1))
      else None
  end.

(** An entry as [run_all_tests] builds it from the output of a run. *)
Definition produced (mx : nat) (r : run_result) : Prop :=
  exists output,
    timeseries r = points_of mx output /\
    phases r = phases_of mx output /\
    timeseries r <> [].

(** What [main] does after the runs when every call succeeds: the file, the
    summary, then the two figures. *)
Definition report_events (no_plot : bool) (rs : list run_result) : list event :=
  [WriteJson "latency_data.json" rs; Print (MsgRawSaved "latency_data.json")] ++
  match rs with
  | [] => [Print MsgNoSummaryData]
  | _ :: _ =>
      Print MsgSummaryHeader ::
      map (fun r => Print (MsgRunStats (run_id r) (map snd (timeseries r)))) rs ++
      [Print (MsgOverallStats (all_latencies rs))]
  end ++
  if no_plot then []
  else
    match rs with
    | [] => [Print MsgNoPlotData; Print MsgNoPlotData]
    | _ :: _ =>
        [SaveRunsFigure "latency_analysis.png"
           (map (fun r => (run_id r, timeseries r)) rs);
         Print (MsgPlotSaved "latency_analysis.png"); ShowFigure;
         SaveAverageFigure "average_latency.png" (average_latency rs);
         Print (MsgAveragePlotSaved "average_latency.png"); ShowFigure]
    end.

(** Every file and plotting call succeeds. *)
Definition io_works (w : world) : Prop :=
  forall tr ev, io_error w tr ev = None.

(** The second call of the script is interrupted. *)
Definition interrupted_world : world :=
  scripted_world [Completed 0 (one_record "1.5") []; Raised KeyboardInterrupt].

(** The disk is full: every write of the JSON file fails. *)
Definition full_disk_world : world :=
  {| path_exists := fun _ => true;
     script_outcome := fun _ => Completed 0 (one_record "1.5") [];
     now_isoformat := fun _ => lit "2025-01-01T00:00:00";
     io_error := fun _ ev =>
       match ev with
       | WriteJson _ _ => Some (OtherException "OSError")
       | _ => None
       end |}.


(** The order of [(int, float)] tuples: by timestamp, then by latency. *)
Definition point_le (a b : point) : Prop :=
  fst a < fst b \/ (fst a = fst b /\ float_le (snd a) (snd b) = true).

(** The script belongs to somebody else: its mode cannot be changed. *)
Definition read_only_world : world :=
  {| path_exists := fun _ => true;
     script_outcome := fun _ => Completed 0 [] [];
     now_isoformat := fun _ => [];
     io_error := fun _ ev =>
       match ev with
       | Chmod _ _ => Some (OtherException "PermissionError")
       | _ => None
       end |}.

(** * Properties *)

(** ** The matcher *)

Lemma rep_sound {R} p (k : str -> str -> option R) taken s r :
  rep p k taken s = Some r ->
  exists w rest, s = w ++ rest /\ forallb p w = true /\ k (taken ++ w) rest = Some r.
Proof.
  revert taken. induction s as [|x s IH]; intros taken H; simpl in H.
  - exists [], []. simpl; rewrite app_nil_r. repeat split; assumption.
  - destruct (p x) eqn:Hp.
    + destruct (rep p k (taken ++ [x]) s) as [r'|] eqn:Hrec.
      * inversion H; subst r'. apply IH in Hrec as (w & rest & -> & Hw & Hk).
        exists (x :: w), rest. simpl. rewrite Hp, Hw.
        rewrite <- app_assoc in Hk. repeat split; assumption.
      * exists [], (x :: s). simpl; rewrite app_nil_r. repeat split; assumption.
    + exists [], (x :: s). simpl; rewrite app_nil_r. repeat split; assumption.
Qed.

Lemma match_here_groups pat : forall s gs rest,
  match_here pat s = Some (gs, rest) ->
  Forall2 captured_by (group_classes pat) gs.
Proof.
  induction pat as [|a pat IH]; intros s gs rest H; simpl in H.
  - inversion H. constructor.
  - destruct a as [c|p|p]; simpl.
    + destruct s as [|x s]; [discriminate|].
      destruct (Ascii.eqb x c); [eauto | discriminate].
    + apply rep_sound in H as (w & r & _ & _ & H). eauto.
    + apply rep_sound in H as (w & r & _ & Hw & H). simpl in H.
      destruct w as [|y w]; [discriminate|].
      destruct (match_here pat r) as [[gs' r']|] eqn:Hm; [|discriminate].
      inversion H; subst. constructor; [|eauto].
      split; [discriminate | exact Hw].
Qed.

Lemma update_pattern_groups s gs rest :
  match_here update_pattern s = Some (gs, rest) ->
  exists ts lat, gs = [ts; lat] /\ captured_by is_digit ts /\ captured_by is_digit_or_dot lat.
Proof.
  intros H. apply match_here_groups in H. simpl in H.
  inversion H as [|p1 g1 ps1 gs1 H1 H']; subst.
  inversion H' as [|p2 g2 ps2 gs2 H2 H'']; subst.
  inversion H''; subst. eauto.
Qed.

Lemma phase_pattern_groups s gs rest :
  match_here phase_pattern s = Some (gs, rest) ->
  exists n t e, gs = [n; t; e] /\ captured_by is_word n /\
                captured_by is_digit_or_dot t /\ captured_by is_digit e.
Proof.
  intros H. apply match_here_groups in H. simpl in H.
  inversion H as [|p1 g1 ps1 gs1 H1 H']; subst.
  inversion H' as [|p2 g2 ps2 gs2 H2 H'']; subst.
  inversion H'' as [|p3 g3 ps3 gs3 H3 H''']; subst.
  inversion H'''; subst. eexists _, _, _. eauto.
Qed.

(** Every reported match is a match of the pattern at its offset, and the
    offsets increase. *)
Lemma finditer_from_spec pat : forall s skip pos q gs,
  In (q, gs) (finditer_from pat skip pos s) ->
  (pos + skip <= q)%nat /\
  exists rest, match_here pat (drop (q - pos) s) = Some (gs, rest).
Proof.
  induction s as [|x s IH]; intros skip pos q gs Hin; simpl in Hin; [contradiction|].
  destruct skip as [|n].
  - destruct (match_here pat (x :: s)) as [[gs0 rest]|] eqn:Hm.
    + destruct Hin as [Heq|Hin].
      * inversion Heq; subst. split; [lia|].
        replace (q - q)%nat with 0%nat by lia. simpl. eauto.
      * apply IH in Hin as [Hle [r Hr]]. split; [lia|].
        replace (q - pos)%nat with (S (q - S pos)) by lia. simpl. eauto.
    + apply IH in Hin as [Hle [r Hr]]. split; [lia|].
      replace (q - pos)%nat with (S (q - S pos)) by lia. simpl. eauto.
  - apply IH in Hin as [Hle [r Hr]]. split; [lia|].
    replace (q - pos)%nat with (S (q - S pos)) by lia. simpl. eauto.
Qed.

Lemma finditer_from_increasing pat : forall s skip pos,
  StronglySorted lt (map fst (finditer_from pat skip pos s)).
Proof.
  induction s as [|x s IH]; intros skip pos; simpl; [constructor|].
  destruct skip as [|n]; [|apply IH].
  destruct (match_here pat (x :: s)) as [[gs0 rest]|]; [|apply IH].
  simpl. constructor; [apply IH|].
  apply List.Forall_forall. intros q Hq. apply in_map_iff in Hq as [[q' gs] [<- Hin]].
  apply finditer_from_spec in Hin as [Hle _]. simpl. lia.
Qed.

Lemma findall_update_groups s gs :
  In gs (findall update_pattern s) ->
  exists ts lat, gs = [ts; lat] /\ captured_by is_digit ts /\ captured_by is_digit_or_dot lat.
Proof.
  unfold findall, finditer. intros H.
  apply in_map_iff in H as [[q gs'] [<- Hin]].
  apply finditer_from_spec in Hin as [_ [rest Hm]].
  eapply update_pattern_groups; eauto.
Qed.

Lemma findall_phase_groups s gs :
  In gs (findall phase_pattern s) ->
  exists n t e, gs = [n; t; e] /\ captured_by is_word n /\
                captured_by is_digit_or_dot t /\ captured_by is_digit e.
Proof.
  unfold findall, finditer. intros H.
  apply in_map_iff in H as [[q gs'] [<- Hin]].
  apply finditer_from_spec in Hin as [_ [rest Hm]].
  eapply phase_pattern_groups; eauto.
Qed.

(** ** Extraction in closed form *)

Lemma py_int_raises mx s e : py_int mx s = Err e -> e = ValueError.
Proof.
  unfold py_int. destruct (split_sign (strip s)) as [neg s1].
  destruct (digitpart s1) as [[ds [|c r]]|]; try congruence.
  destruct (_ && _); congruence.
Qed.

Lemma py_float_raises s e : py_float s = Err e -> e = ValueError.
Proof.
  unfold py_float. destruct (split_sign (strip s)) as [neg s1].
  destruct (parse_absfloat s1); congruence.
Qed.

Lemma timeseries_loop mx (ms : list groups) : forall acc,
  Forall (fun g => length g = 2%nat) ms ->
  for_each ms (fun m timeseries_data =>
      '(timestamp_str, latency_str) ← unpack2 m;
      try_except_ValueError
        (timestamp ← py_int mx timestamp_str;
         latency ← py_float latency_str;
         mret (timeseries_data ++ [(timestamp, latency)]))
        (mret timeseries_data)) acc
  = Ok (acc ++ omap (point_of_match mx) ms).
Proof.
  induction ms as [|g ms IH]; intros acc Hlen; simpl.
  - by rewrite app_nil_r.
  - inversion Hlen as [|? ? Hg Hms]; subst.
    destruct g as [|a [|b [|c g]]]; try discriminate. simpl.
    unfold mbind, res_bind, mret, res_ret; simpl.
    destruct (py_int mx a) as [t|e] eqn:Hi; simpl.
    + destruct (py_float b) as [f|e] eqn:Hf; simpl.
      * rewrite IH by assumption. by rewrite <- app_assoc.
      * apply py_float_raises in Hf as ->. simpl. by apply IH.
    + apply py_int_raises in Hi as ->. simpl. by apply IH.
Qed.

Lemma phase_loop mx (ms : list groups) : forall acc,
  Forall (fun g => length g = 3%nat) ms ->
  for_each ms (fun m phases =>
      '(phase_name, throughput_str, elapsed_str) ← unpack3 m;
      try_except_ValueError
        (throughput ← py_float throughput_str;
         elapsed ← py_int mx elapsed_str;
         mret (phases ++ [{| name := phase_name;
                             throughput := throughput;
                             elapsed := elapsed |}]))
        (mret phases)) acc
  = Ok (acc ++ omap (phase_of_match mx) ms).
Proof.
  induction ms as [|g ms IH]; intros acc Hlen; simpl.
  - by rewrite app_nil_r.
  - inversion Hlen as [|? ? Hg Hms]; subst.
    destruct g as [|a [|b [|c [|d g]]]]; try discriminate. simpl.
    unfold mbind, res_bind, mret, res_ret; simpl.
    destruct (py_float b) as [t|e] eqn:Hf; simpl.
    + destruct (py_int mx c) as [el|e] eqn:Hi; simpl.
      * rewrite IH by assumption. by rewrite <- app_assoc.
      * apply py_int_raises in Hi as ->. simpl. by apply IH.
    + apply py_float_raises in Hf as ->. simpl. by apply IH.
Qed.

Lemma extract_timeseries_data_eq mx output :
  extract_timeseries_data mx output
  = Ok (sorted point_lt (omap (point_of_match mx) (findall update_pattern output))).
Proof.
  unfold extract_timeseries_data.
  rewrite timeseries_loop; [reflexivity|].
  apply List.Forall_forall. intros g Hg.
  apply findall_update_groups in Hg as (ts & lat & -> & _). reflexivity.
Qed.

Lemma extract_phase_info_eq mx output :
  extract_phase_info mx output
  = Ok (omap (phase_of_match mx) (findall phase_pattern output)).
Proof.
  unfold extract_phase_info.
  rewrite phase_loop; [reflexivity|].
  apply List.Forall_forall. intros g Hg.
  apply findall_phase_groups in Hg as (n & t & e & -> & _). reflexivity.
Qed.

(** ** Conversions of captured fields *)

Lemma drop_while_Forall {A} (P : A -> Prop) p (l : list A) :
  Forall P l -> Forall P (drop_while p l).
Proof.
  induction 1 as [|x l Hx Hl IH]; simpl; [constructor|].
  destruct (p x); [assumption | by constructor].
Qed.

Lemma strip_Forall (P : ascii -> Prop) s : Forall P s -> Forall P (strip s).
Proof.
  intros H. unfold strip.
  apply Forall_rev, drop_while_Forall, Forall_rev, drop_while_Forall, H.
Qed.

Lemma digitpart_tail_digits : forall n s, (length s <= n)%nat ->
  forallb is_digit (fst (digitpart_tail s)) = true.
Proof.
  induction n as [|n IH]; intros [|c s] Hn; simpl in *; try reflexivity; try lia.
  destruct (is_digit c) eqn:Hc.
  - specialize (IH s ltac:(lia)).
    destruct (digitpart_tail s) as [ds r]. simpl in *. by rewrite Hc.
  - destruct (Ascii.eqb c "_"); [|reflexivity].
    destruct s as [|d s]; [reflexivity|].
    destruct (is_digit d) eqn:Hd; [|reflexivity].
    specialize (IH s ltac:(simpl in Hn; lia)).
    destruct (digitpart_tail s) as [ds r]. simpl in *. by rewrite Hd.
Qed.

Lemma digitpart_digits s ds r :
  digitpart s = Some (ds, r) -> forallb is_digit ds = true.
Proof.
  destruct s as [|c s]; simpl; [discriminate|].
  destruct (is_digit c) eqn:Hc; [|discriminate].
  pose proof (digitpart_tail_digits (length s) s (le_n _)) as H.
  destruct (digitpart_tail s) as [ds' r']. intros [= <- <-].
  simpl in *. by rewrite Hc.
Qed.

Lemma digit_value_nonneg c : is_digit c = true -> 0 <= digit_value c <= 9.
Proof.
  unfold is_digit, in_range, digit_value. intros H.
  apply andb_prop in H as [H1 H2].
  apply Nat.leb_le in H1, H2. lia.
Qed.

Lemma decimal_fold_nonneg ds : forall a,
  forallb is_digit ds = true -> 0 <= a ->
  0 <= fold_left (fun acc c => 10 * acc + digit_value c) ds a.
Proof.
  induction ds as [|c ds IH]; simpl; intros a H Ha; [assumption|].
  apply andb_prop in H as [Hc Hds].
  apply IH; [assumption|]. pose proof (digit_value_nonneg c Hc). lia.
Qed.

Lemma decimal_value_nonneg ds : forallb is_digit ds = true -> 0 <= decimal_value ds.
Proof. intros H. apply decimal_fold_nonneg; [assumption | lia]. Qed.

Lemma split_sign_Forall (P : ascii -> Prop) s :
  Forall P s -> ~ P "-"%char -> split_sign s = (false, s) \/
  exists s', split_sign s = (false, s') /\ Forall P s'.
Proof.
  intros H Hm. destruct H as [|c s Hc Hs]; simpl; [by left|].
  destruct (Ascii.eqb_spec c "-"%char) as [->|_]; [contradiction|].
  destruct (Ascii.eqb c "+"%char); [right; eauto | by left].
Qed.

Lemma py_int_captured mx ts v :
  captured_by is_digit ts -> py_int mx ts = Ok v -> 0 <= v.
Proof.
  intros [_ Hd] H. unfold py_int in H.
  rewrite List.forallb_forall, <- List.Forall_forall in Hd.
  apply (strip_Forall (fun c => is_digit c = true)) in Hd.
  destruct (split_sign_Forall _ _ Hd) as [Hs|[s' [Hs _]]]; [discriminate| |];
    rewrite Hs in H.
  all: destruct (digitpart _) as [[ds [|c r]]|] eqn:Hdp; try discriminate.
  all: destruct (_ && _); [discriminate|]; injection H as <-.
  all: eapply decimal_value_nonneg, digitpart_digits, Hdp.
Qed.

Lemma float_nonneg_le f : float_nonneg f -> float_le float_zero f = true.
Proof. destruct f as [[]|[]| |[] m e]; simpl; intros H; try contradiction; reflexivity. Qed.

Lemma iter_pos_inv {A} (P : A -> Prop) (f : A -> A) :
  (forall x, P x -> P (f x)) -> forall n x, P x -> P (SpecFloat.iter_pos f n x).
Proof.
  intros Hf. induction n as [n IH|n IH|]; intros x Hx; simpl; auto.
Qed.

Lemma shr_1_nonneg mrs : 0 <= shr_m mrs -> 0 <= shr_m (shr_1 mrs).
Proof.
  destruct mrs as [m r s]. simpl. destruct m as [|[p|p|]|p]; simpl; lia.
Qed.

Lemma shr_fexp_nonneg m e l :
  0 <= m -> 0 <= shr_m (fst (shr_fexp prec emax m e l)).
Proof.
  intros Hm. unfold shr_fexp, shr.
  assert (H0 : 0 <= shr_m (shr_record_of_loc m l)) by (destruct l as [|[]]; exact Hm).
  destruct (fexp prec emax (Zdigits2 m + e) - e) as [|p|p]; simpl; try exact H0.
  apply (iter_pos_inv (fun mrs => 0 <= shr_m mrs)); [apply shr_1_nonneg | exact H0].
Qed.

Lemma round_nearest_even_nonneg m l : 0 <= m -> 0 <= round_nearest_even m l.
Proof.
  intros Hm. destruct l as [|[]]; simpl; try lia.
  destruct (Z.even m); lia.
Qed.

Lemma binary_round_aux_nonneg m e l :
  0 <= m -> float_nonneg (binary_round_aux prec emax false m e l).
Proof.
  intros Hm. unfold binary_round_aux.
  pose proof (shr_fexp_nonneg m e l Hm) as H1.
  destruct (shr_fexp prec emax m e l) as [mrs' e']. simpl in H1.
  pose proof (shr_fexp_nonneg _ e' loc_Exact
                (round_nearest_even_nonneg _ (loc_of_shr_record mrs') H1)) as H2.
  destruct (shr_fexp prec emax _ e' loc_Exact) as [mrs'' e'']. simpl in H2.
  destruct (shr_m mrs'') as [|p|p]; simpl; [exact I | | lia].
  destruct (e'' <=? emax - prec); exact I.
Qed.

Lemma float_of_decimal_nonneg m e10 : 0 <= m -> float_nonneg (float_of_decimal m e10).
Proof.
  intros Hm. unfold float_of_decimal.
  destruct (m =? 0); [exact I|].
  destruct (0 <=? e10) eqn:He.
  - apply Z.leb_le in He.
    assert (H : 0 <= m * 10 ^ e10) by (apply Z.mul_nonneg_nonneg; [lia | apply Z.pow_nonneg; lia]).
    destruct (m * 10 ^ e10) as [|p|p]; simpl; [exact I | | lia].
    unfold binary_round. destruct (shl_align _ _ _) as [mz ez].
    apply binary_round_aux_nonneg. lia.
  - apply Z.leb_gt in He. unfold SFdiv_core_binary.
    set (s := 0 - 0 - _). set (m' := match s with Z0 => m | Zpos _ => Z.shiftl m s | Zneg _ => 0 end).
    assert (Hm' : 0 <= m').
    { subst m'. destruct s; try lia. apply Z.shiftl_nonneg. exact Hm. }
    assert (Hq : 0 <= m' / 10 ^ (- e10)).
    { apply Z.div_pos; [exact Hm' | apply Z.pow_pos_nonneg; lia]. }
    unfold Z.div in Hq. destruct (Z.div_eucl m' (10 ^ (- e10))) as [q r].
    apply binary_round_aux_nonneg. exact Hq.
Qed.

Lemma opt_digitpart_digits s : forallb is_digit (fst (opt_digitpart s)) = true.
Proof.
  unfold opt_digitpart. destruct (digitpart s) as [[ds r]|] eqn:H; [|reflexivity].
  eapply digitpart_digits, H.
Qed.

Lemma opt_fraction_digits s : forallb is_digit (fst (opt_fraction s)) = true.
Proof.
  destruct s as [|c r]; simpl; [reflexivity|].
  destruct (Ascii.eqb c "."); [apply opt_digitpart_digits | reflexivity].
Qed.

Lemma parse_floatnumber_nonneg s f : parse_floatnumber s = Some f -> float_nonneg f.
Proof.
  unfold parse_floatnumber.
  pose proof (opt_digitpart_digits s) as Hip.
  destruct (opt_digitpart s) as [ip r1].
  pose proof (opt_fraction_digits r1) as Hfp.
  destruct (opt_fraction r1) as [fp r2]. simpl in Hip, Hfp.
  destruct (ip ++ fp) as [|c0 l0] eqn:Happ; [discriminate|]. rewrite <- Happ.
  destruct (parse_exponent r2); [|discriminate]. intros [= <-].
  apply float_of_decimal_nonneg, decimal_value_nonneg.
  by rewrite forallb_app, Hip, Hfp.
Qed.

Lemma to_lower_digit_or_dot c : is_digit_or_dot c = true -> to_lower c = c.
Proof.
  unfold is_digit_or_dot, is_digit, to_lower, in_range. intros H.
  destruct (Ascii.eqb_spec c "."%char) as [Heq|_]; [by rewrite Heq|].
  rewrite orb_false_r in H. apply andb_prop in H as [H1 H2].
  apply Nat.leb_le in H1, H2.
  destruct (65 <=? code c)%nat eqn:H3; [|reflexivity].
  apply Nat.leb_le in H3. lia.
Qed.

Lemma map_to_lower_captured s :
  Forall (fun c => is_digit_or_dot c = true) s -> map to_lower s = s.
Proof.
  induction 1 as [|c s Hc Hs IH]; simpl; [reflexivity|].
  by rewrite IH, to_lower_digit_or_dot.
Qed.

Lemma parse_absfloat_captured s f :
  Forall (fun c => is_digit_or_dot c = true) s ->
  parse_absfloat s = Some f -> float_nonneg f.
Proof.
  intros Hs. unfold parse_absfloat. rewrite (map_to_lower_captured s Hs).
  destruct (_ || _); [by intros [= <-]|].
  unfold str_eqb. destruct (bool_decide_reflect (s = lit "nan")) as [->|_].
  - inversion Hs as [|? ? Hn _]. discriminate Hn.
  - apply parse_floatnumber_nonneg.
Qed.

Lemma py_float_captured lat f :
  captured_by is_digit_or_dot lat -> py_float lat = Ok f -> float_nonneg f.
Proof.
  intros [_ Hd] H. unfold py_float in H.
  rewrite List.forallb_forall, <- List.Forall_forall in Hd.
  apply (strip_Forall (fun c => is_digit_or_dot c = true)) in Hd.
  destruct (split_sign_Forall _ _ Hd) as [Hs|[s' [Hs Hd']]]; [discriminate| |];
    rewrite Hs in H.
  - destruct (parse_absfloat (strip lat)) as [f'|] eqn:Hp; [|discriminate].
    injection H as <-. eapply parse_absfloat_captured; eauto.
  - destruct (parse_absfloat s') as [f'|] eqn:Hp; [|discriminate].
    injection H as <-. eapply parse_absfloat_captured; eauto.
Qed.

(** ** [sorted] *)

Lemma insert_sorted_perm {A} (lt : A -> A -> bool) x l :
  Permutation (insert_sorted lt x l) (x :: l).
Proof.
  induction l as [|y l IH]; simpl; [reflexivity|].
  destruct (lt y x); [|reflexivity].
  rewrite IH. apply perm_swap.
Qed.

Lemma sorted_perm {A} (lt : A -> A -> bool) l : Permutation (sorted lt l) l.
Proof.
  induction l as [|x l IH]; simpl; [reflexivity|].
  rewrite insert_sorted_perm. by constructor.
Qed.

Lemma sorted_length {A} (lt : A -> A -> bool) l : length (sorted lt l) = length l.
Proof. apply Permutation_length, sorted_perm. Qed.

Lemma omap_Forall {A B} (f : A -> option B) (P : B -> Prop) l :
  (forall x y, In x l -> f x = Some y -> P y) -> Forall P (omap f l).
Proof.
  induction l as [|x l IH]; simpl; intros H; [constructor|].
  destruct (f x) as [y|] eqn:Hx.
  - constructor; [eapply H; eauto | apply IH; eauto].
  - apply IH; eauto.
Qed.

Lemma point_lt_timestamp a b : point_lt a b = true -> fst a <= fst b.
Proof.
  unfold point_lt. destruct (Z.eqb_spec (fst a) (fst b)); [lia|].
  intros H. apply Z.ltb_lt in H. lia.
Qed.

Lemma point_not_lt_timestamp a b : point_lt a b = false -> fst b <= fst a.
Proof.
  unfold point_lt. destruct (Z.eqb_spec (fst a) (fst b)); [lia|].
  intros H. apply Z.ltb_ge in H. lia.
Qed.

Lemma insert_sorted_timestamps x l :
  StronglySorted timestamp_le l ->
  StronglySorted timestamp_le (insert_sorted point_lt x l).
Proof.
  induction 1 as [|y l Hl IH Hy]; simpl; [repeat constructor|].
  destruct (point_lt y x) eqn:Hlt.
  - constructor; [exact IH|].
    eapply Permutation_Forall; [symmetry; apply insert_sorted_perm|].
    constructor; [by apply point_lt_timestamp | exact Hy].
  - apply point_not_lt_timestamp in Hlt.
    constructor; [by constructor|].
    constructor; [exact Hlt|].
    eapply Forall_impl; [exact Hy|]. unfold timestamp_le. simpl. intros z Hz. lia.
Qed.

Lemma sorted_timestamps l : StronglySorted timestamp_le (sorted point_lt l).
Proof.
  induction l as [|x l IH]; simpl; [constructor|].
  by apply insert_sorted_timestamps.
Qed.

(** ** The update pattern without backtracking *)

Lemma span_drop_while {A} (p : A -> bool) s : snd (span p s) = drop_while p s.
Proof.
  induction s as [|c s IH]; simpl; [reflexivity|].
  destruct (p c); [|reflexivity]. destruct (span p s). exact IH.
Qed.

Lemma match_here_lits m pat : forall s,
  match_here (map Chr m ++ pat) s =
  match strip_prefix m s with
  | Some s1 => match_here pat s1
  | None => None
  end.
Proof.
  induction m as [|c m IH]; intros s; simpl; [reflexivity|].
  destruct s as [|x s]; [reflexivity|].
  destruct (Ascii.eqb x c); [apply IH | reflexivity].
Qed.

(** A repetition whose continuation rejects every text that still starts
    with a character of the class takes the longest run. *)
Lemma rep_longest {R} p (k : str -> str -> option R) :
  (forall tk x r, p x = true -> k tk (x :: r) = None) ->
  forall s taken, rep p k taken s = k (taken ++ fst (span p s)) (snd (span p s)).
Proof.
  intros Hk. induction s as [|x s IH]; intros taken; simpl.
  - by rewrite app_nil_r.
  - destruct (p x) eqn:Hp.
    + rewrite IH. destruct (span p s) as [a b]. simpl.
      rewrite <- app_assoc. simpl.
      destruct (k (taken ++ x :: a) b) eqn:Hr; [reflexivity|].
      by apply Hk.
    + simpl. by rewrite app_nil_r.
Qed.

(** A repetition whose continuation accepts whatever non-empty run it is
    given keeps the longest run. *)
Lemma rep_last {R} p (k : str -> str -> option R) :
  (forall tk r, tk <> [] -> k tk r <> None) ->
  forall s taken, rep p k taken s = k (taken ++ fst (span p s)) (snd (span p s)).
Proof.
  intros Hk. induction s as [|x s IH]; intros taken; simpl.
  - by rewrite app_nil_r.
  - destruct (p x) eqn:Hp.
    + rewrite IH. destruct (span p s) as [a b]. simpl.
      rewrite <- app_assoc. simpl.
      destruct (k (taken ++ x :: a) b) eqn:Hr; [reflexivity|].
      exfalso. eapply Hk; [|exact Hr]. by destruct taken.
    + simpl. by rewrite app_nil_r.
Qed.

Lemma space_not_digit x : is_space x = true -> is_digit x = false.
Proof.
  unfold is_space, is_digit, in_range. intros H.
  destruct (48 <=? code x)%nat eqn:H1; [|reflexivity].
  destruct (code x <=? 57)%nat eqn:H2; [|reflexivity].
  apply Nat.leb_le in H1, H2. exfalso.
  repeat (apply orb_prop in H as [H|H]).
  - apply andb_prop in H as [_ H]. apply Nat.leb_le in H. lia.
  - apply andb_prop in H as [_ H]. apply Nat.leb_le in H. lia.
  - apply Nat.eqb_eq in H. lia.
  - apply Nat.eqb_eq in H. lia.
Qed.

Lemma space_not_digit_or_dot x : is_space x = true -> is_digit_or_dot x = false.
Proof.
  intros H. unfold is_digit_or_dot. rewrite (space_not_digit x H). simpl.
  destruct (Ascii.eqb_spec x "."%char) as [Heq|_]; [|reflexivity].
  rewrite Heq in H. discriminate H.
Qed.

Lemma digit_not_comma x : is_digit x = true -> Ascii.eqb x ","%char = false.
Proof.
  intros H. destruct (Ascii.eqb_spec x ","%char) as [Heq|_]; [|reflexivity].
  rewrite Heq in H. discriminate H.
Qed.

Lemma match_here_update s : match_here update_pattern s = update_match s.
Proof.
  unfold update_pattern, update_match, lits. rewrite match_here_lits.
  destruct (strip_prefix (lit "[UPDATE],") s) as [s1|]; [|reflexivity].
  cbn [match_here].
  rewrite rep_longest.
  2:{ intros tk x r Hx. simpl. by rewrite (space_not_digit x Hx). }
  rewrite span_drop_while. cbn [app].
  rewrite rep_longest.
  2:{ intros tk x r Hx. destruct tk; [reflexivity|]. by rewrite (digit_not_comma x Hx). }
  cbn [app]. destruct (span is_digit (drop_while is_space s1)) as [ts s3]. cbn [fst snd].
  destruct ts as [|t ts]; [reflexivity|].
  destruct s3 as [|c s4]; [reflexivity|].
  destruct (Ascii.eqb c ","); [|reflexivity].
  rewrite rep_longest.
  2:{ intros tk x r Hx. simpl. by rewrite (space_not_digit_or_dot x Hx). }
  rewrite span_drop_while. cbn [app].
  rewrite rep_last.
  2:{ intros tk r Htk. by destruct tk. }
  cbn [app]. destruct (span is_digit_or_dot (drop_while is_space s4)) as [lat s6].
  cbn [fst snd]. by destruct lat.
Qed.

(** ** Lines *)

Lemma join_lines s : join (lines s) = s.
Proof.
  induction s as [|c s IH]; simpl; [reflexivity|].
  destruct (Ascii.eqb_spec c nl) as [->|Hc].
  - simpl. destruct (lines s) as [|l ls] eqn:Hl; [by destruct s; simpl in Hl; [|destruct (Ascii.eqb a nl), (lines s)]|].
    by rewrite IH.
  - destruct (lines s) as [|l ls] eqn:Hl.
    + exfalso. by destruct s; simpl in Hl; [|destruct (Ascii.eqb a nl), (lines s)].
    + simpl in *. destruct ls; by rewrite <- IH.
Qed.

Lemma strip_prefix_app m : forall t t1 Y,
  strip_prefix m t = Some t1 -> strip_prefix m (t ++ Y) = Some (t1 ++ Y).
Proof.
  induction m as [|c m IH]; intros t t1 Y; simpl.
  - by intros [= <-].
  - destruct t as [|x t]; [discriminate|]. simpl.
    destruct (Ascii.eqb x c); [apply IH | discriminate].
Qed.

Lemma strip_prefix_app_none m : forall t Y,
  ~ In nl m -> strip_prefix m t = None -> strip_prefix m (t ++ nl :: Y) = None.
Proof.
  induction m as [|c m IH]; intros t Y Hnl; cbn [strip_prefix]; [discriminate|].
  destruct t as [|x t]; cbn [app].
  - intros _. destruct (Ascii.eqb_spec nl c) as [Heq|_]; [|reflexivity].
    exfalso. apply Hnl. by left.
  - destruct (Ascii.eqb x c); [|reflexivity].
    apply IH. intros H. apply Hnl. by right.
Qed.

Lemma drop_while_app_nil {A} (p : A -> bool) t Y :
  drop_while p t = [] -> drop_while p (t ++ Y) = drop_while p Y.
Proof.
  induction t as [|x t IH]; simpl; [reflexivity|].
  destruct (p x); [exact IH | discriminate].
Qed.

Lemma drop_while_app_cons {A} (p : A -> bool) t Y c t' :
  drop_while p t = c :: t' -> drop_while p (t ++ Y) = c :: t' ++ Y.
Proof.
  induction t as [|x t IH]; simpl; [discriminate|].
  destruct (p x); [exact IH|]. by intros [= <- <-].
Qed.

Lemma span_app_stop {A} (p : A -> bool) t x Y :
  p x = false ->
  span p (t ++ x :: Y) = (fst (span p t), snd (span p t) ++ x :: Y).
Proof.
  intros Hx. induction t as [|c t IH]; simpl; [by rewrite Hx|].
  destruct (p c); [|reflexivity].
  rewrite IH. by destruct (span p t).
Qed.

Lemma marker_no_newline : ~ In nl (lit "[UPDATE],").
Proof. simpl. intros H. repeat (destruct H as [H|H]; [discriminate H|]). exact H. Qed.

(** A match that lies in the line is not affected by the text after it. *)
Lemma update_match_extend t gs r Y :
  update_match t = Some (gs, r) ->
  update_match (t ++ nl :: Y) = Some (gs, r ++ nl :: Y).
Proof.
  unfold update_match.
  destruct (strip_prefix (lit "[UPDATE],") t) as [t1|] eqn:Hm; [|discriminate].
  rewrite (strip_prefix_app _ _ _ _ Hm).
  destruct (drop_while is_space t1) as [|c t2] eqn:Hd1; [discriminate|].
  rewrite (drop_while_app_cons _ _ _ _ _ Hd1).
  change (c :: t2 ++ nl :: Y) with ((c :: t2) ++ nl :: Y).
  rewrite span_app_stop by reflexivity.
  destruct (span is_digit (c :: t2)) as [ts s3]. cbn [fst snd].
  destruct ts as [|d ts]; [discriminate|].
  destruct s3 as [|c' s4]; [discriminate|]. cbn [app].
  destruct (Ascii.eqb c' ","); [|discriminate].
  destruct (drop_while is_space s4) as [|e t5] eqn:Hd2; [discriminate|].
  rewrite (drop_while_app_cons _ _ _ _ _ Hd2).
  change (e :: t5 ++ nl :: Y) with ((e :: t5) ++ nl :: Y).
  rewrite span_app_stop by reflexivity.
  destruct (span is_digit_or_dot (e :: t5)) as [lat s6]. cbn [fst snd].
  destruct lat; [discriminate|]. by intros [= <- <-].
Qed.

(** An attempt that fails although a digit field follows the line fails
    whatever follows the line. *)
Lemma update_match_inert t Y :
  update_match (t ++ nl :: probe) = None ->
  update_match (t ++ nl :: Y) = None.
Proof.
  unfold update_match.
  destruct (strip_prefix (lit "[UPDATE],") t) as [t1|] eqn:Hm.
  2:{ intros _. by rewrite (strip_prefix_app_none _ _ _ marker_no_newline Hm). }
  rewrite !(strip_prefix_app _ _ _ _ Hm).
  destruct (drop_while is_space t1) as [|c t2] eqn:Hd1.
  { rewrite (drop_while_app_nil _ _ _ Hd1). discriminate. }
  rewrite !(drop_while_app_cons _ _ _ _ _ Hd1).
  change (c :: t2 ++ nl :: probe) with ((c :: t2) ++ nl :: probe).
  change (c :: t2 ++ nl :: Y) with ((c :: t2) ++ nl :: Y).
  rewrite !span_app_stop by reflexivity.
  destruct (span is_digit (c :: t2)) as [ts s3]. cbn [fst snd].
  destruct ts as [|d ts]; [by destruct (s3 ++ nl :: Y)|].
  destruct s3 as [|c' s4]; [reflexivity|]. cbn [app].
  destruct (Ascii.eqb c' ","); [|reflexivity].
  destruct (drop_while is_space s4) as [|e t5] eqn:Hd2.
  { rewrite (drop_while_app_nil _ _ _ Hd2). discriminate. }
  rewrite !(drop_while_app_cons _ _ _ _ _ Hd2).
  change (e :: t5 ++ nl :: probe) with ((e :: t5) ++ nl :: probe).
  change (e :: t5 ++ nl :: Y) with ((e :: t5) ++ nl :: Y).
  rewrite !span_app_stop by reflexivity.
  destruct (span is_digit_or_dot (e :: t5)) as [lat s6]. cbn [fst snd].
  by destruct lat.
Qed.

(** ** Scanning a text line by line *)

Lemma finditer_from_shift pat : forall s skip pos pos',
  map snd (finditer_from pat skip pos s) = map snd (finditer_from pat skip pos' s).
Proof.
  induction s as [|x s IH]; intros skip pos pos'; simpl; [reflexivity|].
  destruct skip as [|n]; [|apply IH].
  destruct (match_here pat (x :: s)) as [[gs rest]|]; [|apply IH].
  simpl. f_equal. apply IH.
Qed.

Lemma findall_from_match pat x s gs rest :
  match_here pat (x :: s) = Some (gs, rest) ->
  findall_from pat 0 (x :: s) = gs :: findall_from pat (length s - length rest) s.
Proof.
  intros H. unfold findall_from. cbn [finditer_from]. rewrite H.
  cbn [map snd length]. f_equal.
  replace (S (length s) - length rest - 1)%nat with (length s - length rest)%nat by lia.
  apply finditer_from_shift.
Qed.

Lemma findall_from_nomatch pat x s :
  match_here pat (x :: s) = None ->
  findall_from pat 0 (x :: s) = findall_from pat 0 s.
Proof.
  intros H. unfold findall_from. cbn [finditer_from]. rewrite H.
  apply finditer_from_shift.
Qed.

Lemma findall_from_skip pat a b :
  findall_from pat (length a) (a ++ b) = findall_from pat 0 b.
Proof.
  unfold findall_from. induction a as [|x a IH]; simpl; [reflexivity|].
  rewrite <- IH. apply finditer_from_shift.
Qed.

Lemma findall_from_newline Y :
  findall_from update_pattern 0 (nl :: Y) = findall_from update_pattern 0 Y.
Proof. apply findall_from_nomatch. reflexivity. Qed.

Lemma inert_line_spec l :
  inert_line l = true <-> findall_from update_pattern 0 (l ++ nl :: probe) = [].
Proof.
  unfold inert_line, findall, finditer, findall_from.
  destruct (map snd _); split; intros H; congruence.
Qed.

(** A record line followed by more text: its groups, then the rest. *)
Lemma findall_record_line l gs Y :
  line_groups l = Some gs ->
  findall_from update_pattern 0 (l ++ nl :: Y) = gs :: findall_from update_pattern 0 Y.
Proof.
  unfold line_groups. rewrite match_here_update.
  destruct (update_match l) as [[gs' [|c r]]|] eqn:Hm; try discriminate.
  intros [= ->].
  pose proof (update_match_extend l gs [] Y Hm) as He. cbn [app] in He.
  destruct l as [|x l]; [discriminate Hm|].
  cbn [app]. rewrite (findall_from_match _ _ _ gs (nl :: Y)).
  2:{ rewrite match_here_update. exact He. }
  replace (length (l ++ nl :: Y) - length (nl :: Y))%nat with (length l).
  2:{ rewrite length_app. simpl. lia. }
  rewrite findall_from_skip. by rewrite findall_from_newline.
Qed.

Lemma findall_record_last l gs :
  line_groups l = Some gs -> findall_from update_pattern 0 l = [gs].
Proof.
  unfold line_groups.
  destruct (match_here update_pattern l) as [[gs' [|c r]]|] eqn:Hm; try discriminate.
  intros [= ->].
  destruct l as [|x l]; [discriminate Hm|].
  rewrite (findall_from_match _ _ _ gs [] Hm).
  replace (length l - length (@nil ascii))%nat with (length l) by (simpl; lia).
  rewrite <- (app_nil_r l) at 2. by rewrite findall_from_skip.
Qed.

Lemma findall_inert_line l Y :
  findall_from update_pattern 0 (l ++ nl :: probe) = [] ->
  findall_from update_pattern 0 (l ++ nl :: Y) = findall_from update_pattern 0 Y.
Proof.
  induction l as [|x l IH]; intros H; cbn [app] in *.
  - apply findall_from_newline.
  - destruct (match_here update_pattern (x :: l ++ nl :: probe)) as [[gs r]|] eqn:Hm.
    + rewrite (findall_from_match _ _ _ _ _ Hm) in H. discriminate H.
    + rewrite (findall_from_nomatch _ _ _ Hm) in H.
      rewrite findall_from_nomatch; [by apply IH|].
      rewrite match_here_update in *.
      by apply (update_match_inert (x :: l)).
Qed.

Lemma findall_inert_last l :
  findall_from update_pattern 0 (l ++ nl :: probe) = [] ->
  findall_from update_pattern 0 l = [].
Proof.
  induction l as [|x l IH]; intros H; cbn [app] in *; [reflexivity|].
  destruct (match_here update_pattern (x :: l ++ nl :: probe)) as [[gs r]|] eqn:Hm.
  - rewrite (findall_from_match _ _ _ _ _ Hm) in H. discriminate H.
  - rewrite (findall_from_nomatch _ _ _ Hm) in H.
    rewrite findall_from_nomatch; [by apply IH|].
    rewrite match_here_update in *.
    destruct (update_match (x :: l)) as [[gs r]|] eqn:Hl; [|reflexivity].
    apply (update_match_extend _ _ _ probe) in Hl.
    cbn [app] in Hl. congruence.
Qed.

Lemma inert_line_groups l : inert_line l = true -> line_groups l = None.
Proof.
  intros H. apply inert_line_spec in H.
  destruct (line_groups l) as [gs|] eqn:Hg; [|reflexivity].
  rewrite (findall_record_line l gs probe Hg) in H. discriminate H.
Qed.

Lemma findall_join ls :
  forallb plain_line ls = true ->
  findall update_pattern (join ls) = omap line_groups ls.
Proof.
  change (findall update_pattern (join ls)) with (findall_from update_pattern 0 (join ls)).
  induction ls as [|l ls IH]; [reflexivity|].
  cbn [forallb]. intros H. apply andb_prop in H as [Hl Hls].
  specialize (IH Hls). unfold plain_line in Hl.
  destruct ls as [|l2 ls].
  - cbn [join omap list_omap].
    destruct (line_groups l) as [gs|] eqn:Hg.
    + by apply findall_record_last.
    + by apply findall_inert_last, inert_line_spec.
  - change (join (l :: l2 :: ls)) with (l ++ nl :: join (l2 :: ls)).
    change (omap line_groups (l :: l2 :: ls))
      with (match line_groups l with
            | Some gs => gs :: omap line_groups (l2 :: ls)
            | None => omap line_groups (l2 :: ls)
            end).
    destruct (line_groups l) as [gs|] eqn:Hg.
    + rewrite (findall_record_line l gs _ Hg). by rewrite IH.
    + rewrite findall_inert_line by (by apply inert_line_spec). exact IH.
Qed.

Lemma omap_point_of_line mx (ls : list str) :
  omap (point_of_match mx) (omap line_groups ls) = omap (point_of_line mx) ls.
Proof.
  induction ls as [|l ls IH]; [reflexivity|].
  cbn [omap list_omap]. unfold point_of_line at 1.
  destruct (line_groups l) as [gs|]; [|exact IH].
  cbn [omap list_omap]. destruct (point_of_match mx gs); by rewrite <- IH.
Qed.

Lemma omap_point_of_line_length mx (ls : list str) :
  length (omap (point_of_line mx) ls) = length (List.filter (record_line mx) ls).
Proof.
  induction ls as [|l ls IH]; [reflexivity|].
  cbn [omap list_omap List.filter]. unfold record_line at 1.
  destruct (point_of_line mx l); simpl; by rewrite <- IH.
Qed.

(** ** Claims about extraction *)

(** C1, as stated, fails: a marker left open at the end of one line is
    completed by the digits that start the next one, and a line that holds
    two records yields two points.  In both texts no line is a record
    line. *)
Lemma records_across_and_within_lines :
  ~ one_point_per_record_line 4300 (lit "[UPDATE]," ++ nl :: lit "5, 3.0") /\
  ~ one_point_per_record_line 4300 (lit "[UPDATE], 1, 2.0 [UPDATE], 3, 4.0").
Proof.
  split; intros (data & Hd & Hlen & _); vm_compute in Hd, Hlen;
    injection Hd as <-; discriminate Hlen.
Qed.

(** C1 (amended): for every text block whose lines are update records from
    their first to their last character, or lines in which no record
    starts whatever follows, [extract_timeseries_data] returns exactly one
    pair per record line with well-formed numeric fields: the points of
    those lines, sorted ascending by timestamp whatever the order of the
    lines. *)
Theorem record_lines_extracted (mx : nat) (text : str) :
  forallb plain_line (lines text) = true ->
  exists data,
    extract_timeseries_data mx text = Ok data /\
    length data = count_record_lines mx text /\
    StronglySorted timestamp_le data /\
    Permutation data (omap (point_of_line mx) (lines text)).
Proof.
  intros H. eexists. split; [apply extract_timeseries_data_eq|].
  assert (Hf : findall update_pattern text = omap line_groups (lines text)).
  { rewrite <- (join_lines text) at 1. by apply findall_join. }
  rewrite Hf, omap_point_of_line.
  split; [|split].
  - rewrite sorted_length. apply omap_point_of_line_length.
  - apply sorted_timestamps.
  - apply sorted_perm.
Qed.

Lemma record_lines_extracted_witness :
  exists data,
    extract_timeseries_data 4300 sample_block = Ok data /\
    length data = count_record_lines 4300 sample_block /\
    StronglySorted timestamp_le data /\
    Permutation data (omap (point_of_line 4300) (lines sample_block)).
Proof. apply (record_lines_extracted 4300 sample_block). vm_compute. reflexivity. Defined.

(** C3: in both extraction functions a match whose numeric fields do not
    convert is skipped, every other match is kept, and no exception
    leaves the function. *)
Theorem malformed_fields_skipped (mx : nat) (output : str) :
  extract_timeseries_data mx output
    = Ok (sorted point_lt (omap (point_of_match mx) (findall update_pattern output))) /\
  extract_phase_info mx output
    = Ok (omap (phase_of_match mx) (findall phase_pattern output)).
Proof. split; [apply extract_timeseries_data_eq | apply extract_phase_info_eq]. Qed.

(** A latency with two dots and a timestamp beyond the digit limit of
    [int()] are skipped; the records around them are kept. *)
Example malformed_records_dropped :
  extract_timeseries_data 4300
    (lit "[UPDATE], 1, 1.2.3" ++ nl :: lit "[UPDATE], 2, 4.5" ++ nl ::
     lit "[UPDATE], " ++ repeat "9"%char 4301 ++ lit ", 7" ++ nl :: lit "[UPDATE], 3, .")
  = Ok [(2, S754_finite false 5066549580791808 (-50))] /\
  extract_phase_info 4300
    (lit "Phase: High, Throughput: 1..5 ops/sec, Elapsed: 30ms" ++ nl ::
     lit "Phase: Low, Throughput: 2 ops/sec, Elapsed: 40ms")
  = Ok [{| name := lit "Low";
           throughput := S754_finite false 4503599627370496 (-51);
           elapsed := 40 |}].
Proof. split; vm_compute; reflexivity. Qed.

(** C9: every pair returned by [extract_timeseries_data] has a timestamp
    [>= 0] and a latency [>= 0] (neither negative, nor minus zero, nor
    NaN). *)
Theorem timeseries_nonnegative (mx : nat) (output : str) :
  exists data,
    extract_timeseries_data mx output = Ok data /\
    Forall (fun pt : point =>
              0 <= fst pt /\ float_nonneg (snd pt) /\
              float_le float_zero (snd pt) = true) data.
Proof.
  eexists. split; [apply extract_timeseries_data_eq|].
  eapply Permutation_Forall; [symmetry; apply sorted_perm|].
  apply omap_Forall. intros g pt Hg Hpt.
  apply findall_update_groups in Hg as (ts & lat & -> & Hts & Hlat).
  simpl in Hpt.
  destruct (py_int mx ts) as [t|] eqn:Ht; [|discriminate].
  destruct (py_float lat) as [f|] eqn:Hf; [|discriminate].
  injection Hpt as <-. simpl.
  pose proof (py_float_captured lat f Hlat Hf).
  split; [eapply py_int_captured; eauto|].
  split; [assumption | by apply float_nonneg_le].
Qed.

(** C10: [extract_phase_info] lists the well-formed phase records in the
    order in which their matches start in the text, and does not sort
    them: a later phase with a smaller name, throughput and elapsed time
    stays behind the earlier one. *)
Theorem phases_in_text_order (mx : nat) (output : str) :
  extract_phase_info mx output
  = Ok (omap (phase_of_match mx) (map snd (finditer phase_pattern output))) /\
  StronglySorted lt (map fst (finditer phase_pattern output)) /\
  (forall pos gs, In (pos, gs) (finditer phase_pattern output) ->
     exists rest, match_here phase_pattern (drop pos output) = Some (gs, rest)) /\
  omap (phase_of_match mx) (map snd (finditer phase_pattern
    (lit "Phase: B, Throughput: 2 ops/sec, Elapsed: 9ms Phase: A, Throughput: 1 ops/sec, Elapsed: 5ms")))
  = [ {| name := lit "B"; throughput := S754_finite false 4503599627370496 (-51); elapsed := 9 |};
      {| name := lit "A"; throughput := S754_finite false 4503599627370496 (-52); elapsed := 5 |} ].
Proof.
  split; [apply extract_phase_info_eq|].
  split; [apply finditer_from_increasing|].
  split.
  - intros pos gs Hin. apply finditer_from_spec in Hin as [_ [rest Hr]].
    rewrite Nat.sub_0_r in Hr. eauto.
  - destruct mx as [|[|mx]]; vm_compute; reflexivity.
Qed.

(** ** Aggregation over runs *)

Lemma add_latency_lookup d pt ts :
  default [] (add_latency d pt !! ts)
  = default [] (d !! ts) ++ (if fst pt =? ts then [snd pt] else []).
Proof.
  destruct pt as [t lat]. unfold add_latency. cbn [fst snd].
  destruct (Z.eqb_spec t ts) as [->|Hne].
  - rewrite lookup_alter_eq. destruct (d !! ts) as [l|] eqn:Hl.
    + by rewrite Hl.
    + by rewrite lookup_insert_eq.
  - rewrite lookup_alter_ne by done. rewrite app_nil_r.
    destruct (d !! t); [done|]. by rewrite lookup_insert_ne.
Qed.

Lemma add_latency_nonempty d pt :
  (forall k l, d !! k = Some l -> l <> []) ->
  forall k l, add_latency d pt !! k = Some l -> l <> [].
Proof.
  intros Hd k l. destruct pt as [t lat]. unfold add_latency.
  destruct (decide (t = k)) as [->|Hne].
  - rewrite lookup_alter_eq. destruct (d !! k) as [l0|] eqn:Hl.
    + rewrite Hl. simpl. intros [= <-]. by destruct l0.
    + rewrite lookup_insert_eq. simpl. by intros [= <-].
  - rewrite lookup_alter_ne by done.
    destruct (d !! t); [apply Hd|]. rewrite lookup_insert_ne by done. apply Hd.
Qed.

Lemma fold_add_latency_lookup pts : forall d ts,
  default [] (fold_left add_latency pts d !! ts)
  = default [] (d !! ts) ++ latencies_at ts pts.
Proof.
  induction pts as [|pt pts IH]; intros d ts; simpl.
  - by rewrite app_nil_r.
  - rewrite IH, add_latency_lookup. unfold latencies_at. cbn [omap list_omap].
    destruct (fst pt =? ts); by rewrite <- app_assoc.
Qed.

Lemma fold_add_latency_nonempty pts : forall d,
  (forall k l, d !! k = Some l -> l <> []) ->
  forall k l, fold_left add_latency pts d !! k = Some l -> l <> [].
Proof.
  induction pts as [|pt pts IH]; intros d Hd; simpl; [exact Hd|].
  apply IH. by apply add_latency_nonempty.
Qed.

Lemma fold_runs_lookup (results : list run_result) : forall d ts,
  default [] (fold_left (fun d result => fold_left add_latency (timeseries result) d)
                results d !! ts)
  = default [] (d !! ts) ++ contributions ts results.
Proof.
  induction results as [|r results IH]; intros d ts; simpl.
  - by rewrite app_nil_r.
  - rewrite IH, fold_add_latency_lookup. by rewrite <- app_assoc.
Qed.

Lemma fold_runs_nonempty (results : list run_result) : forall d,
  (forall k l, d !! k = Some l -> l <> []) ->
  forall k l,
    fold_left (fun d result => fold_left add_latency (timeseries result) d)
      results d !! k = Some l -> l <> [].
Proof.
  induction results as [|r results IH]; intros d Hd; simpl; [exact Hd|].
  apply IH. by apply fold_add_latency_nonempty.
Qed.

Lemma timestamp_latencies_lookup results ts :
  timestamp_latencies results !!! ts = contributions ts results.
Proof.
  rewrite lookup_total_alt. unfold timestamp_latencies.
  change (@inhabitant (list float) _) with (@nil float).
  by rewrite fold_runs_lookup, lookup_empty.
Qed.

Lemma timestamp_latencies_key results ts :
  contributions ts results <> [] ->
  In ts (map fst (map_to_list (timestamp_latencies results))).
Proof.
  intros Hc. pose proof (timestamp_latencies_lookup results ts) as Hl.
  rewrite lookup_total_alt in Hl.
  destruct (timestamp_latencies results !! ts) as [l|] eqn:Hts.
  - apply in_map_iff. exists (ts, l). split; [done|].
    apply list_elem_of_In. by apply elem_of_map_to_list.
  - simpl in Hl. congruence.
Qed.

(** ** Counts, sums of zeros and the deviation of equal values *)

Lemma shr_1_digits mrs :
  0 <= shr_m mrs ->
  Zdigits2 (shr_m (shr_1 mrs)) = Z.max 0 (Zdigits2 (shr_m mrs) - 1).
Proof.
  destruct mrs as [m r s]. simpl.
  destruct m as [|[p|p|]|p]; simpl; intros H; try lia.
Qed.

Lemma iter_shr_digits n : forall mrs,
  0 <= shr_m mrs ->
  0 <= shr_m (SpecFloat.iter_pos shr_1 n mrs) /\
  Zdigits2 (shr_m (SpecFloat.iter_pos shr_1 n mrs))
  = Z.max 0 (Zdigits2 (shr_m mrs) - Zpos n).
Proof.
  induction n as [n IH|n IH|]; intros mrs Hm; simpl.
  - pose proof (shr_1_nonneg mrs Hm) as H1.
    pose proof (shr_1_digits mrs Hm) as D1.
    destruct (IH _ H1) as [H2 D2]. destruct (IH _ H2) as [H3 D3].
    split; [exact H3|]. rewrite D3, D2, D1. lia.
  - destruct (IH _ Hm) as [H2 D2]. destruct (IH _ H2) as [H3 D3].
    split; [exact H3|]. rewrite D3, D2. lia.
  - split; [by apply shr_1_nonneg|]. by apply shr_1_digits.
Qed.

Lemma Zdigits2_pos m : 0 < m -> 0 < Zdigits2 m.
Proof. destruct m; simpl; lia. Qed.

Lemma Zdigits2_pos_inv m : 0 <= m -> 0 < Zdigits2 m -> 0 < m.
Proof. destruct m; simpl; lia. Qed.

Lemma shr_fexp_pos m e l :
  0 < m -> emin prec emax <= e ->
  0 < shr_m (fst (shr_fexp prec emax m e l)) /\
  emin prec emax <= snd (shr_fexp prec emax m e l).
Proof.
  intros Hm He. unfold shr_fexp, shr.
  assert (H0 : shr_m (shr_record_of_loc m l) = m) by (by destruct l as [|[]]).
  pose proof (Zdigits2_pos m Hm) as Hd.
  destruct (fexp prec emax (Zdigits2 m + e) - e) as [|p|p] eqn:Hn; simpl;
    try (rewrite H0; split; [exact Hm | exact He]).
  destruct (iter_shr_digits p (shr_record_of_loc m l)) as [H1 D1]; [rewrite H0; lia|].
  rewrite H0 in D1. unfold fexp, emin, prec, emax in *.
  split; [|lia]. apply Zdigits2_pos_inv; [exact H1|]. rewrite D1. lia.
Qed.

Lemma round_nearest_even_ge m l : m <= round_nearest_even m l.
Proof. destruct l as [|[]]; simpl; try lia. destruct (Z.even m); lia. Qed.

Lemma binary_round_aux_pos m e l :
  0 < m -> emin prec emax <= e -> float_pos (binary_round_aux prec emax false m e l).
Proof.
  intros Hm He. unfold binary_round_aux.
  destruct (shr_fexp_pos m e l Hm He) as [H1 E1].
  destruct (shr_fexp prec emax m e l) as [mrs' e']. simpl in H1, E1.
  pose proof (round_nearest_even_ge (shr_m mrs') (loc_of_shr_record mrs')) as Hr.
  destruct (shr_fexp_pos (round_nearest_even (shr_m mrs') (loc_of_shr_record mrs'))
              e' loc_Exact ltac:(lia) E1) as [H2 _].
  destruct (shr_fexp prec emax _ e' loc_Exact) as [mrs'' e'']. simpl in H2.
  destruct (shr_m mrs'') as [|p|p]; try lia.
  by destruct (e'' <=? emax - prec).
Qed.

Lemma float_of_nat_pos n : (0 < n)%nat -> float_pos (float_of_nat n).
Proof.
  intros Hn. unfold float_of_nat.
  destruct (Z.of_nat n) as [|p|p] eqn:Hp; try lia.
  simpl. unfold binary_round, shl_align.
  pose proof (Z.le_max_r (Z.pos (digits2_pos p) + 0 - prec) (emin prec emax)) as Hf.
  fold (fexp prec emax (Z.pos (digits2_pos p) + 0)) in Hf.
  destruct (fexp prec emax (Z.pos (digits2_pos p) + 0) - 0) as [|d|d] eqn:Hd;
    apply binary_round_aux_pos; try lia; unfold emin, prec, emax in *; lia.
Qed.

Lemma b64_sub_diag v : float_finite v -> b64_sub v v = float_zero.
Proof.
  destruct v as [[]| | |s m e]; simpl; try contradiction; try reflexivity.
  intros _. unfold b64_sub, SFsub. by rewrite Z.sub_diag.
Qed.

Lemma b64_div_zero_pos f : float_pos f -> b64_div float_zero f = float_zero.
Proof. by destruct f as [|[]| |[] m e]. Qed.

Lemma add_all_zero l :
  Forall (eq float_zero) l -> add_all float_zero l = float_zero.
Proof.
  unfold add_all. induction 1 as [|x l <- Hl IH]; simpl; [reflexivity | exact IH].
Qed.

Lemma get_zero a i : Forall (eq float_zero) a -> get a i = float_zero.
Proof.
  unfold get. intros H. revert i.
  induction H as [|x l <- Hl IH]; intros [|i]; simpl; auto.
Qed.

Lemma unrolled_zero a : Forall (eq float_zero) a -> forall blocks i,
  unrolled blocks i (float_zero, float_zero, float_zero, float_zero,
                     float_zero, float_zero, float_zero, float_zero) a
  = (float_zero, float_zero, float_zero, float_zero,
     float_zero, float_zero, float_zero, float_zero).
Proof.
  intros Ha. induction blocks as [|b IH]; intros i; simpl; [reflexivity|].
  unfold load8. rewrite !(get_zero a) by exact Ha. apply IH.
Qed.

Lemma pairwise_sum_zero fuel : forall a,
  Forall (eq float_zero) a -> pairwise_sum fuel a = float_zero.
Proof.
  induction fuel as [|fuel IH]; intros a Ha; simpl.
  all: destruct (length a <? 8)%nat; [by apply add_all_zero|].
  all: destruct (length a <=? 128)%nat; [|].
  1,3: unfold load8; rewrite !(get_zero a) by exact Ha;
       rewrite unrolled_zero by exact Ha;
       apply add_all_zero, Forall_drop, Ha.
  - reflexivity.
  - rewrite !IH; [reflexivity | by apply Forall_drop | by apply Forall_take].
Qed.

(** The bound on the halving plays no role once it covers the array. *)
Lemma pairwise_sum_fuel fuel1 : forall fuel2 a,
  (length a <= fuel1)%nat -> (length a <= fuel2)%nat ->
  pairwise_sum fuel1 a = pairwise_sum fuel2 a.
Proof.
  induction fuel1 as [|fuel1 IH]; intros [|fuel2] a H1 H2; cbn [pairwise_sum]; cbv zeta;
    destruct (length a <? 8)%nat eqn:H8; try reflexivity;
    destruct (length a <=? 128)%nat eqn:H128; try reflexivity;
    apply Nat.leb_gt in H128; try lia.
  pose proof (Nat.Div0.mod_le (length a / 2) 8) as Hmod.
  pose proof (Nat.mod_upper_bound (length a / 2) 8 ltac:(lia)) as Hup.
  pose proof (Nat.div_lt (length a) 2 ltac:(lia) ltac:(lia)) as Hhalf.
  assert (Hlow : (64 <= length a / 2)%nat) by (apply Nat.div_le_lower_bound; lia).
  f_equal; apply IH; rewrite ?length_take, ?length_drop; lia.
Qed.

Lemma np_sum_zero a : Forall (eq float_zero) a -> np_sum a = float_zero.
Proof. intros Ha. unfold np_sum. by rewrite pairwise_sum_zero. Qed.

(** When the computed mean of equal finite values is that value, every
    deviation is zero and so is the standard deviation. *)
Lemma np_std_equal_values v a :
  float_finite v -> Forall (eq v) a -> np_mean a = v -> np_std a = float_zero.
Proof.
  intros Hv Ha Hm.
  assert (Hne : a <> []).
  { intros ->. subst v. exact Hv. }
  unfold np_std. rewrite Hm.
  rewrite np_sum_zero.
  - rewrite b64_div_zero_pos; [reflexivity|].
    apply float_of_nat_pos. destruct a; [done | simpl; lia].
  - clear Hm Hne. induction Ha as [|x l <- Hl IH]; simpl; constructor; [|exact IH].
    by rewrite b64_sub_diag.
Qed.

Lemma timestamp_latencies_nonempty results ts :
  In ts (sorted Z.ltb (map fst (map_to_list (timestamp_latencies results)))) ->
  contributions ts results <> [].
Proof.
  intros Hin.
  eapply Permutation_in in Hin; [|apply sorted_perm].
  apply in_map_iff in Hin as [[k l] [Hk Hin]]. simpl in Hk. subst k.
  apply list_elem_of_In, elem_of_map_to_list in Hin.
  rewrite <- timestamp_latencies_lookup, lookup_total_alt, Hin. simpl.
  unfold timestamp_latencies in Hin.
  eapply fold_runs_nonempty; [|exact Hin].
  intros k l0. by rewrite lookup_empty.
Qed.

(** A timestamp at which some run reports a latency is listed. *)
Lemma contributing_timestamp_listed results ts :
  contributions ts results <> [] ->
  exists i, nth_error (fst (fst (average_latency results))) i = Some ts.
Proof.
  intros Hc. apply In_nth_error. unfold average_latency. cbn [fst].
  eapply Permutation_in; [symmetry; apply sorted_perm|].
  by apply timestamp_latencies_key.
Qed.

(** ** Claim about aggregation *)

(** C2, as stated, fails: three runs report the same latency 0.1 at
    timestamp 0; the aggregated mean is 0.10000000000000002, not 0.1, and
    the standard deviation is 2^-56, about 1.39e-17, not zero. *)
Lemma equal_latencies_nonzero_std :
  py_float (lit "0.1") = Ok tenth /\
  contributions 0 three_equal_runs = [tenth; tenth; tenth] /\
  average_latency three_equal_runs
  = ([0], [S754_finite false 7205759403792795 (-56)],
          [S754_finite false 4503599627370496 (-108)]) /\
  float_eq (S754_finite false 7205759403792795 (-56)) tenth = false /\
  float_eq (S754_finite false 4503599627370496 (-108)) float_zero = false.
Proof. repeat split; vm_compute; reflexivity. Qed.

(** C2 (amended): at every timestamp of the aggregation the value is the
    float64 mean that [np.mean] computes from all latencies the runs
    contribute at that timestamp (their rounded sum divided by their
    count), the deviation is [np.std] of the same values, and the
    deviation is zero whenever these values are one finite value and the
    computed mean is that value. *)
Theorem mean_and_std_by_timestamp (results : list run_result) (i : nat) (ts : Z) :
  nth_error (fst (fst (average_latency results))) i = Some ts ->
  contributions ts results <> [] /\
  nth_error (snd (fst (average_latency results))) i
  = Some (np_mean (contributions ts results)) /\
  nth_error (snd (average_latency results)) i
  = Some (np_std (contributions ts results)) /\
  (forall v, float_finite v -> Forall (eq v) (contributions ts results) ->
             np_mean (contributions ts results) = v ->
             np_std (contributions ts results) = float_zero).
Proof.
  intros Hi.
  unfold average_latency in *. cbn [fst snd] in *.
  split; [|split; [|split]].
  - apply timestamp_latencies_nonempty. eapply nth_error_In, Hi.
  - rewrite nth_error_map, Hi. simpl. by rewrite timestamp_latencies_lookup.
  - rewrite nth_error_map, Hi. simpl. by rewrite timestamp_latencies_lookup.
  - intros v. apply np_std_equal_values.
Qed.

Lemma mean_and_std_by_timestamp_witness :
  contributions 0 two_equal_runs <> [] /\
  nth_error (snd (fst (average_latency two_equal_runs))) 0
  = Some (np_mean (contributions 0 two_equal_runs)) /\
  nth_error (snd (average_latency two_equal_runs)) 0
  = Some (np_std (contributions 0 two_equal_runs)) /\
  (forall v, float_finite v -> Forall (eq v) (contributions 0 two_equal_runs) ->
             np_mean (contributions 0 two_equal_runs) = v ->
             np_std (contributions 0 two_equal_runs) = float_zero).
Proof. apply (mean_and_std_by_timestamp two_equal_runs 0 0). vm_compute. reflexivity. Defined.

Example two_equal_runs_aggregate :
  average_latency two_equal_runs = ([0], [tenth], [float_zero]).
Proof. vm_compute. reflexivity. Qed.

(** ** One run, and the loop over the runs *)

Lemma run_single_test_eq w script n i s :
  let o := script_outcome w (trace s ++ [Print (MsgRunning (i + 1) n)]) in
  run_single_test w script n i s =
  match o with
  | Completed rc out err =>
      if negb (rc =? 0)
      then (Ok None, with_trace s ([Print (MsgRunning (i + 1) n); RunScript script]
                                     ++ failure_log (i + 1) o))
      else (Ok (Some out), with_trace s [Print (MsgRunning (i + 1) n); RunScript script])
  | Raised e =>
      if is_Exception e
      then (Ok None, with_trace s ([Print (MsgRunning (i + 1) n); RunScript script]
                                     ++ failure_log (i + 1) o))
      else (Err e, with_trace s [Print (MsgRunning (i + 1) n); RunScript script])
  end.
Proof.
  intros o. subst o.
  unfold run_single_test, try_except, subprocess_run, print, emit, with_trace,
    mbind, M_bind, mret, M_ret. simpl.
  destruct (script_outcome w _) as [rc out err|e]; simpl.
  - destruct (rc =? 0); simpl; by rewrite <- ?app_assoc.
  - destruct e; simpl; by rewrite <- ?app_assoc.
Qed.

Lemma run_test_eq mx w script n i s :
  let o := script_outcome w (trace s ++ [Print (MsgRunning (i + 1) n)]) in
  let head := [Print (MsgRunning (i + 1) n); RunScript script] in
  run_test mx w script n i s =
  match o with
  | Completed rc out err =>
      if negb (rc =? 0) then (Ok tt, with_trace s (head ++ failure_log (i + 1) o))
      else
        match points_of mx out with
        | [] => (Ok tt, with_trace s (head ++ [Print (MsgNoSeries (i + 1))] ++ delay i n))
        | _ :: _ =>
            (Ok tt,
             {| results := results s ++
                  [{| run_id := i + 1;
                      timeseries := points_of mx out;
                      phases := phases_of mx out;
                      timestamp := now_isoformat w (trace s ++ head) |}];
                trace := trace s ++ head ++
                  [Print (MsgCompleted (i + 1) (length (points_of mx out)))] ++ delay i n |})
        end
  | Raised e =>
      if is_Exception e then (Ok tt, with_trace s (head ++ failure_log (i + 1) o))
      else (Err e, with_trace s head)
  end.
Proof.
  intros o head. subst o head. unfold run_test.
  unfold mbind at 1. unfold M_bind at 1. rewrite run_single_test_eq.
  destruct (script_outcome w _) as [rc out err|e].
  - destruct (negb (rc =? 0)); [reflexivity|].
    unfold lift, now, append_result, print, emit, with_trace, delay, points_of, phases_of,
      mbind, M_bind, mret, M_ret.
    rewrite extract_timeseries_data_eq, extract_phase_info_eq. cbn [results trace].
    destruct (sorted point_lt _) as [|pt pts]; cbn [results trace];
      destruct (i <? n - 1); cbn [results trace];
      rewrite <- ?app_assoc; reflexivity.
  - destruct (is_Exception e); reflexivity.
Qed.

(** A run adds at most one entry, numbered by the run and never empty. *)
Lemma run_test_results mx w script n i s :
  let s' := snd (run_test mx w script n i s) in
  results s' = results s \/
  exists r, results s' = results s ++ [r] /\ run_id r = i + 1 /\ timeseries r <> [].
Proof.
  intros s'. subst s'. rewrite run_test_eq.
  destruct (script_outcome w _) as [rc out err|e].
  - destruct (negb (rc =? 0)); [by left|].
    destruct (points_of mx out) as [|pt pts] eqn:Hp; [by left|].
    right. eexists. split; [reflexivity|]. split; [reflexivity | discriminate].
  - destruct (is_Exception e); by left.
Qed.

Lemma StronglySorted_snoc {A} (R : A -> A -> Prop) l y :
  StronglySorted R l -> Forall (fun x => R x y) l -> StronglySorted R (l ++ [y]).
Proof.
  induction 1 as [|x l Hl IH Hx]; intros Hy; simpl.
  - repeat constructor.
  - inversion Hy as [|? ? Hxy Hly]; subst. constructor; [by apply IH|].
    apply Forall_app. split; [exact Hx | by constructor].
Qed.

Lemma results_upto_step mx w script n i s :
  0 <= i -> results_upto i (results s) ->
  results_upto (i + 1) (results (snd (run_test mx w script n i s))).
Proof.
  intros Hi [Hall Hsorted].
  destruct (run_test_results mx w script n i s) as [->|(r & -> & Hid & Hts)].
  - split; [|exact Hsorted].
    eapply Forall_impl; [exact Hall|]. simpl. intros r [? ?]. split; [done | lia].
  - split.
    + apply Forall_app. split.
      * eapply Forall_impl; [exact Hall|]. simpl. intros r' [? ?]. split; [done | lia].
      * constructor; [|constructor]. split; [done | lia].
    + rewrite map_app. simpl. apply StronglySorted_snoc; [exact Hsorted|].
      apply Forall_map. eapply Forall_impl; [exact Hall|]. simpl. intros r' [_ ?]. lia.
Qed.

Lemma results_upto_loop mx w script n k : forall a s,
  results_upto (Z.of_nat a) (results s) ->
  results_upto (Z.of_nat (a + k))
    (results (snd (for_M (map Z.of_nat (seq a k)) (run_test mx w script n) s))).
Proof.
  induction k as [|k IH]; intros a s Hs.
  - simpl. by rewrite Nat.add_0_r.
  - cbn [seq map for_M]. unfold mbind, M_bind.
    pose proof (results_upto_step mx w script n (Z.of_nat a) s ltac:(lia) Hs) as H1.
    replace (Z.of_nat a + 1) with (Z.of_nat (S a)) in H1 by lia.
    destruct (run_test mx w script n (Z.of_nat a) s) as [[[]|e] s1]; cbn [snd] in *.
    + specialize (IH (S a) s1 H1).
      by replace (a + S k)%nat with (S a + k)%nat by lia.
    + destruct H1 as [Hall Hsorted]. split; [|exact Hsorted].
      eapply Forall_impl; [exact Hall|]. simpl. intros r [? ?]. split; [done | lia].
Qed.

(** An interrupt is not an [Exception]: it leaves [run_single_test] and the
    loop, and [main] turns it into exit status 1. *)
Lemma interrupt_leaves_the_loop mx w script n i s rest :
  script_outcome w (trace s ++ [Print (MsgRunning (i + 1) n)]) = Raised KeyboardInterrupt ->
  run_single_test w script n i s
  = (Err KeyboardInterrupt, with_trace s [Print (MsgRunning (i + 1) n); RunScript script]) /\
  for_M (i :: rest) (run_test mx w script n) s
  = (Err KeyboardInterrupt, with_trace s [Print (MsgRunning (i + 1) n); RunScript script]).
Proof.
  intros Ho. split.
  - by rewrite run_single_test_eq, Ho.
  - cbn [for_M]. unfold mbind, M_bind. by rewrite run_test_eq, Ho.
Qed.

Example interrupted_analysis :
  main 4300 (scripted_world [Raised KeyboardInterrupt]) default_arguments (init_state [])
  = (Err (SystemExit 1),
     {| results := [];
        trace := [Chmod test_sh 493; Print (MsgStarting 4);
                  Print (MsgRunning 1 4); RunScript test_sh; Print MsgInterrupted] |}).
Proof. vm_compute. reflexivity. Qed.

(** A whole analysis of two runs, without plots. *)
Example two_run_analysis :
  snd (main 4300
         (scripted_world [Completed 0 (one_record "1.5") [];
                          Completed 0 (lit "Phase: Baseline, Throughput: 1000.0 ops/sec, Elapsed: 10000ms") []])
         {| runs := 2; script := test_sh; no_plot := true |} (init_state []))
  = {| results :=
         [{| run_id := 1;
             timeseries := [(0, S754_finite false 6755399441055744 (-52))];
             phases := []; timestamp := lit "2025-01-01T00:00:00" |}];
       trace :=
         [Chmod test_sh 493; Print (MsgStarting 2);
          Print (MsgRunning 1 2); RunScript test_sh; Print (MsgCompleted 1 1);
          Print MsgWaiting; Sleep 10;
          Print (MsgRunning 2 2); RunScript test_sh; Print (MsgNoSeries 2);
          WriteJson "latency_data.json"
            [{| run_id := 1;
                timeseries := [(0, S754_finite false 6755399441055744 (-52))];
                phases := []; timestamp := lit "2025-01-01T00:00:00" |}];
          Print (MsgRawSaved "latency_data.json");
          Print MsgSummaryHeader;
          Print (MsgRunStats 1 [S754_finite false 6755399441055744 (-52)]);
          Print (MsgOverallStats [S754_finite false 6755399441055744 (-52)])] |}.
Proof. vm_compute. reflexivity. Qed.

(** ** Claims about the runs *)

(** C4, as stated, fails: no line of the output holds a record (the
    pattern does not even match inside a line), yet the pattern matches
    across the line break and the run enters the results with one point. *)
Lemma run_with_split_record_is_kept :
  forallb no_match_in (lines split_record) = true /\
  count_record_lines 4300 split_record = 0%nat /\
  run_all_tests 4300 (scripted_world [Completed 0 split_record []]) test_sh 1 (init_state [])
  = (Ok tt,
     {| results := [{| run_id := 1;
                       timeseries := [(5, S754_finite false 6755399441055744 (-51))];
                       phases := [];
                       timestamp := lit "2025-01-01T00:00:00" |}];
        trace := [Print (MsgStarting 1); Print (MsgRunning 1 1); RunScript test_sh;
                  Print (MsgCompleted 1 1)] |}).
Proof. repeat split; vm_compute; reflexivity. Qed.

(** C4 (amended): a run whose output has no match of the update pattern
    adds nothing to the results, is reported as having no time series
    data, and the loop goes on with the remaining runs. *)
Theorem run_without_records_is_excluded
    (mx : nat) (w : world) (script : str) (n i : Z) (s : state)
    (out err : str) (rest : list Z) :
  script_outcome w (trace s ++ [Print (MsgRunning (i + 1) n)]) = Completed 0 out err ->
  findall update_pattern out = [] ->
  extract_timeseries_data mx out = Ok [] /\
  run_test mx w script n i s
  = (Ok tt, with_trace s ([Print (MsgRunning (i + 1) n); RunScript script;
                           Print (MsgNoSeries (i + 1))] ++ delay i n)) /\
  for_M (i :: rest) (run_test mx w script n) s
  = for_M rest (run_test mx w script n)
      (with_trace s ([Print (MsgRunning (i + 1) n); RunScript script;
                      Print (MsgNoSeries (i + 1))] ++ delay i n)).
Proof.
  intros Ho Hf.
  assert (Hrun : run_test mx w script n i s
                 = (Ok tt, with_trace s ([Print (MsgRunning (i + 1) n); RunScript script;
                                          Print (MsgNoSeries (i + 1))] ++ delay i n))).
  { rewrite run_test_eq, Ho. unfold points_of. rewrite Hf. reflexivity. }
  split; [by rewrite extract_timeseries_data_eq, Hf|].
  split; [exact Hrun|].
  cbn [for_M]. unfold mbind, M_bind. by rewrite Hrun.
Qed.

Lemma run_without_records_is_excluded_witness :
  extract_timeseries_data 4300 overall_line = Ok [] /\
  run_test 4300 (scripted_world [Completed 0 overall_line []]) test_sh 3 0 (init_state [])
  = (Ok tt, with_trace (init_state [])
              ([Print (MsgRunning (0 + 1) 3); RunScript test_sh;
                Print (MsgNoSeries (0 + 1))] ++ delay 0 3)) /\
  for_M [0; 1; 2]
    (run_test 4300 (scripted_world [Completed 0 overall_line []]) test_sh 3) (init_state [])
  = for_M [1; 2]
      (run_test 4300 (scripted_world [Completed 0 overall_line []]) test_sh 3)
      (with_trace (init_state [])
         ([Print (MsgRunning (0 + 1) 3); RunScript test_sh;
           Print (MsgNoSeries (0 + 1))] ++ delay 0 3)).
Proof.
  apply (run_without_records_is_excluded 4300
           (scripted_world [Completed 0 overall_line []])
           test_sh 3 0 (init_state []) overall_line [] [1; 2]);
    vm_compute; reflexivity.
Defined.

(** C5: when the script returns a non-zero code, times out, or raises an
    exception, [run_single_test] logs it and returns [None];
    [run_all_tests] adds nothing to the results for that run and goes on
    with the remaining runs. *)
Theorem failed_run_is_skipped
    (mx : nat) (w : world) (script : str) (n i : Z) (s : state)
    (o : run_outcome) (rest : list Z) :
  script_outcome w (trace s ++ [Print (MsgRunning (i + 1) n)]) = o ->
  run_fails o = true ->
  run_single_test w script n i s
  = (Ok None, with_trace s ([Print (MsgRunning (i + 1) n); RunScript script]
                              ++ failure_log (i + 1) o)) /\
  failure_log (i + 1) o <> [] /\
  run_test mx w script n i s
  = (Ok tt, with_trace s ([Print (MsgRunning (i + 1) n); RunScript script]
                            ++ failure_log (i + 1) o)) /\
  for_M (i :: rest) (run_test mx w script n) s
  = for_M rest (run_test mx w script n)
      (with_trace s ([Print (MsgRunning (i + 1) n); RunScript script]
                       ++ failure_log (i + 1) o)).
Proof.
  intros Ho Hfail.
  assert (Hrun : run_test mx w script n i s
                 = (Ok tt, with_trace s ([Print (MsgRunning (i + 1) n); RunScript script]
                                           ++ failure_log (i + 1) o))).
  { rewrite run_test_eq, Ho.
    destruct o as [rc out err|e]; simpl in Hfail; by rewrite Hfail. }
  split.
  { rewrite run_single_test_eq, Ho.
    destruct o as [rc out err|e]; simpl in Hfail; by rewrite Hfail. }
  split; [by destruct o as [rc out err|[]]|].
  split; [exact Hrun|].
  cbn [for_M]. unfold mbind, M_bind. by rewrite Hrun.
Qed.

Lemma failed_run_is_skipped_witness :
  run_single_test (scripted_world [Raised TimeoutExpired]) test_sh 3 0 (init_state [])
  = (Ok None, with_trace (init_state [])
                ([Print (MsgRunning (0 + 1) 3); RunScript test_sh]
                   ++ failure_log (0 + 1) (Raised TimeoutExpired))) /\
  failure_log (0 + 1) (Raised TimeoutExpired) <> [] /\
  run_test 4300 (scripted_world [Raised TimeoutExpired]) test_sh 3 0 (init_state [])
  = (Ok tt, with_trace (init_state [])
              ([Print (MsgRunning (0 + 1) 3); RunScript test_sh]
                 ++ failure_log (0 + 1) (Raised TimeoutExpired))) /\
  for_M [0; 1; 2] (run_test 4300 (scripted_world [Raised TimeoutExpired]) test_sh 3)
    (init_state [])
  = for_M [1; 2] (run_test 4300 (scripted_world [Raised TimeoutExpired]) test_sh 3)
      (with_trace (init_state [])
         ([Print (MsgRunning (0 + 1) 3); RunScript test_sh]
            ++ failure_log (0 + 1) (Raised TimeoutExpired))).
Proof.
  apply (failed_run_is_skipped 4300 (scripted_world [Raised TimeoutExpired])
           test_sh 3 0 (init_state []) (Raised TimeoutExpired) [1; 2]);
    vm_compute; reflexivity.
Defined.

(** C6: when the script path does not exist, [main] prints the error and
    exits with status 1; nothing else happens: no run of the script, no
    file, no figure. *)
Theorem missing_script_is_fatal (mx : nat) (w : world) (args : arguments) (s : state) :
  path_exists w (script args) = false ->
  main mx w args s
  = (Err (SystemExit 1), with_trace s [Print (MsgScriptNotFound (script args))]) /\
  exit_status (fst (main mx w args s)) <> 0.
Proof.
  intros H. unfold main. rewrite H. simpl. split; [reflexivity | discriminate].
Qed.

Lemma missing_script_is_fatal_witness :
  main 4300 empty_world default_arguments (init_state [])
  = (Err (SystemExit 1),
     with_trace (init_state []) [Print (MsgScriptNotFound (script default_arguments))]) /\
  exit_status (fst (main 4300 empty_world default_arguments (init_state []))) <> 0.
Proof.
  apply (missing_script_is_fatal 4300 empty_world default_arguments (init_state [])).
  reflexivity.
Defined.

(** C7 fails on the code: of three runs the second times out; the program
    waits 10 seconds after the first run, and starts the third run right
    after the second, without the wait. *)
Theorem no_delay_after_failed_run :
  run_all_tests 4300
    (scripted_world [Completed 0 (one_record "1.5") [];
                     Raised TimeoutExpired;
                     Completed 0 (one_record "2.5") []])
    test_sh 3 (init_state [])
  = (Ok tt,
     {| results :=
          [{| run_id := 1;
              timeseries := [(0, S754_finite false 6755399441055744 (-52))];
              phases := []; timestamp := lit "2025-01-01T00:00:00" |};
           {| run_id := 3;
              timeseries := [(0, S754_finite false 5629499534213120 (-51))];
              phases := []; timestamp := lit "2025-01-01T00:00:00" |}];
        trace := [Print (MsgStarting 3);
                  Print (MsgRunning 1 3); RunScript test_sh;
                  Print (MsgCompleted 1 1); Print MsgWaiting; Sleep 10;
                  Print (MsgRunning 2 3); RunScript test_sh;
                  Print (MsgTimedOut 2);
                  Print (MsgRunning 3 3); RunScript test_sh;
                  Print (MsgCompleted 3 1)] |}).
Proof. vm_compute. reflexivity. Qed.

(** C8: a run adds at most one entry to the results, numbered with the
    1-based index of the run and holding a non-empty time series; after
    [run_all_tests] on a new analyzer the entries have non-empty time
    series and strictly increasing run numbers between 1 and [num_runs],
    whether the loop ends or is interrupted. *)
Theorem results_entries_numbered (mx : nat) (w : world) (script : str) (n : Z) :
  (forall i s,
     results (snd (run_test mx w script n i s)) = results s \/
     exists r, results (snd (run_test mx w script n i s)) = results s ++ [r] /\
               run_id r = i + 1 /\ timeseries r <> []) /\
  (forall tr,
     Forall (fun r => timeseries r <> [] /\ 1 <= run_id r <= n)
       (results (snd (run_all_tests mx w script n (init_state tr)))) /\
     StronglySorted Z.lt
       (map run_id (results (snd (run_all_tests mx w script n (init_state tr)))))).
Proof.
  split; [intros i s; apply run_test_results|].
  intros tr. unfold run_all_tests, range.
  unfold mbind at 1 2. unfold M_bind at 1 2. cbn [print emit].
  pose proof (results_upto_loop mx w script n (Z.to_nat n) 0
                {| results := results (init_state tr);
                   trace := trace (init_state tr) ++ [Print (MsgStarting n)] |}) as H.
  destruct H as [Hall Hsorted].
  { split; constructor. }
  split; [|exact Hsorted].
  eapply Forall_impl; [exact Hall|]. simpl. intros r [? ?]. split; [done | lia].
Qed.

(** * Further properties of the analyzer *)

(** ** Events that an action appends *)

Lemma adds_ret {A} P (a : A) : adds P (mret a : M A).
Proof. intros s. exists []. by rewrite app_nil_r. Qed.

Lemma adds_bind {A B} P (m : M A) (f : A -> M B) :
  adds P m -> (forall a, adds P (f a)) -> adds P (m ≫= f).
Proof.
  intros Hm Hf s. unfold mbind, M_bind.
  destruct (Hm s) as (e1 & H1 & F1).
  destruct (m s) as [[a|e] s1]; cbn [snd] in *.
  - destruct (Hf a s1) as (e2 & H2 & F2). exists (e1 ++ e2).
    rewrite H2, H1, app_assoc. split; [done | by apply Forall_app].
  - by exists e1.
Qed.

Lemma adds_raise {A} P e : adds P (raise e : M A).
Proof. intros s. exists []. by rewrite app_nil_r. Qed.

Lemma adds_lift {A} P (r : res A) : adds P (lift r).
Proof. intros s. exists []. by rewrite app_nil_r. Qed.

Lemma adds_emit (P : event -> Prop) ev : P ev -> adds P (emit ev).
Proof. intros H s. exists [ev]. split; [done | by constructor]. Qed.

Lemma adds_perform (P : event -> Prop) w ev : P ev -> adds P (perform w ev).
Proof.
  intros H s. unfold perform. destruct (io_error w (trace s) ev).
  - exists []. by rewrite app_nil_r.
  - by apply adds_emit.
Qed.

Lemma adds_get_results P : adds P get_results.
Proof. intros s. exists []. by rewrite app_nil_r. Qed.

Lemma adds_append_result P r : adds P (append_result r).
Proof. intros s. exists []. by rewrite app_nil_r. Qed.

Lemma adds_now P w : adds P (now w).
Proof. intros s. exists []. by rewrite app_nil_r. Qed.

Lemma adds_new_analyzer P : adds P new_analyzer.
Proof. intros s. exists []. by rewrite app_nil_r. Qed.

Lemma adds_subprocess_run (P : event -> Prop) w script :
  P (RunScript script) -> adds P (subprocess_run w script).
Proof.
  intros H s. exists [RunScript script]. unfold subprocess_run.
  split; [by destruct (script_outcome w (trace s)) | by constructor].
Qed.

Lemma adds_try_except {A} P (body : M A) handler :
  adds P body -> (forall e h, handler e = Some h -> adds P h) ->
  adds P (try_except body handler).
Proof.
  intros Hb Hh s. unfold try_except.
  destruct (Hb s) as (e1 & H1 & F1).
  destruct (body s) as [[a|e] s1]; cbn [snd] in *; [by exists e1|].
  destruct (handler e) as [h|] eqn:He; [|by exists e1].
  destruct (Hh e h He s1) as (e2 & H2 & F2). exists (e1 ++ e2).
  rewrite H2, H1, app_assoc. split; [done | by apply Forall_app].
Qed.

Lemma adds_for_M {A} P (l : list A) (body : A -> M unit) :
  (forall x, adds P (body x)) -> adds P (for_M l body).
Proof.
  intros Hb. induction l as [|x l IH]; cbn [for_M]; [apply adds_ret|].
  apply adds_bind; [apply Hb | intros _; exact IH].
Qed.

Section RunEffects.
Variable P : event -> Prop.
Variables (mx : nat) (w : world) (script : str) (n : Z).
Hypothesis P_print : forall m, P (Print m).
Hypothesis P_run : P (RunScript script).
Hypothesis P_sleep : P (Sleep 10).

Lemma adds_print m : adds P (print m).
Proof using P_print. apply adds_emit, P_print. Qed.

Lemma adds_run_single_test i : adds P (run_single_test w script n i).
Proof using P_print P_run.
  unfold run_single_test.
  apply adds_bind; [apply adds_print | intros _].
  apply adds_try_except.
  - apply adds_bind; [by apply adds_subprocess_run | intros [[rc out] err]].
    destruct (negb (rc =? 0)); [|apply adds_ret].
    repeat (apply adds_bind; [apply adds_print | intros _]). apply adds_ret.
  - intros e h He. destruct e; simpl in He; try discriminate; injection He as <-;
      (apply adds_bind; [apply adds_print | intros _; apply adds_ret]).
Qed.

Lemma adds_run_test i : adds P (run_test mx w script n i).
Proof using P_print P_run P_sleep.
  unfold run_test.
  apply adds_bind; [apply adds_run_single_test | intros [output|]]; [|apply adds_ret].
  apply adds_bind; [apply adds_lift | intros data].
  apply adds_bind; [apply adds_lift | intros info].
  apply adds_bind.
  - destruct data; [apply adds_print|].
    apply adds_bind; [apply adds_now | intros stamp].
    apply adds_bind; [apply adds_append_result | intros _; apply adds_print].
  - intros _. destruct (i <? n - 1); [|apply adds_ret].
    apply adds_bind; [apply adds_print | intros _; by apply adds_emit].
Qed.

Lemma adds_run_all_tests : adds P (run_all_tests mx w script n).
Proof using P_print P_run P_sleep.
  unfold run_all_tests.
  apply adds_bind; [apply adds_print | intros _].
  apply adds_for_M. apply adds_run_test.
Qed.
End RunEffects.

(** ** What the loop over the runs does and never does *)

Lemma run_all_tests_run_events mx w script n :
  adds (run_event script) (run_all_tests mx w script n).
Proof. apply adds_run_all_tests; simpl; auto. Qed.

(** X1: whatever the script does, [run_all_tests] only prints, calls the
    configured script and waits ten seconds: it writes no file, changes no
    mode and draws no figure, and it leaves the events before it alone. *)
Theorem run_all_tests_effects (mx : nat) (w : world) (script : str) (n : Z) (s : state) :
  exists evs,
    trace (snd (run_all_tests mx w script n s)) = trace s ++ evs /\
    Forall (run_event script) evs.
Proof. apply run_all_tests_run_events. Qed.

Lemma run_test_raises mx w script n i s e :
  fst (run_test mx w script n i s) = Err e -> is_Exception e = false.
Proof.
  rewrite run_test_eq.
  destruct (script_outcome w _) as [rc out err|e'].
  - destruct (negb (rc =? 0)); [discriminate|].
    destruct (points_of mx out); discriminate.
  - destruct (is_Exception e') eqn:He; [discriminate|]. by intros [= <-].
Qed.

Lemma for_M_raises {A} (Q : exn -> Prop) (body : A -> M unit) l :
  (forall x s e, fst (body x s) = Err e -> Q e) ->
  forall s e, fst (for_M l body s) = Err e -> Q e.
Proof.
  intros Hb. induction l as [|x l IH]; intros s e; cbn [for_M].
  - discriminate.
  - unfold mbind, M_bind. pose proof (Hb x s) as Hx.
    destruct (body x s) as [[[]|e'] s1]; cbn [fst] in *; [apply IH|].
    intros [= <-]. by apply Hx.
Qed.

(** X2: no [Exception] leaves [run_all_tests]: a failing script, a timeout
    and a malformed record are all absorbed, and only an interrupt (or an
    exit request) raised while the script runs ends the loop early. *)
Theorem run_all_tests_raises_no_exception
    (mx : nat) (w : world) (script : str) (n : Z) (s : state) (e : exn) :
  fst (run_all_tests mx w script n s) = Err e -> is_Exception e = false.
Proof.
  unfold run_all_tests. unfold mbind at 1. unfold M_bind at 1. cbn [print emit].
  apply (for_M_raises (fun e => is_Exception e = false)).
  intros i s' e'. apply run_test_raises.
Qed.

Lemma run_all_tests_raises_no_exception_witness :
  is_Exception KeyboardInterrupt = false.
Proof.
  apply (run_all_tests_raises_no_exception 4300
           (scripted_world [Completed 0 (one_record "1.5") []; Raised KeyboardInterrupt])
           test_sh 3 (init_state [])).
  vm_compute. reflexivity.
Defined.

Lemma count_events_app p a b :
  count_events p (a ++ b) = (count_events p a + count_events p b)%nat.
Proof. unfold count_events. by rewrite List.filter_app, length_app. Qed.

(** One run: one call of the script, at most one wait, and none in the
    last run. *)
Lemma run_test_counts mx w script n i s :
  count_events is_run (trace (snd (run_test mx w script n i s)))
  = S (count_events is_run (trace s)) /\
  (count_events is_sleep (trace (snd (run_test mx w script n i s)))
   <= count_events is_sleep (trace s) + (if (i <? n - 1)%Z then 1 else 0))%nat.
Proof.
  rewrite run_test_eq.
  destruct (script_outcome w _) as [rc out err|e].
  - destruct (negb (rc =? 0)).
    + cbn [snd with_trace trace]. rewrite !count_events_app.
      destruct (i <? n - 1); cbn; lia.
    + destruct (points_of mx out); cbn [snd with_trace trace];
        rewrite !count_events_app; unfold delay;
        destruct (i <? n - 1); cbn; lia.
  - destruct (is_Exception e); cbn [snd with_trace trace]; rewrite !count_events_app.
    + destruct e, (i <? n - 1); cbn; lia.
    + destruct (i <? n - 1); cbn; lia.
Qed.

Lemma run_loop_counts mx w script n k : forall a s,
  let out := for_M (map Z.of_nat (seq a k)) (run_test mx w script n) s in
  (count_events is_run (trace (snd out)) <= count_events is_run (trace s) + k)%nat /\
  (fst out = Ok tt ->
   count_events is_run (trace (snd out)) = (count_events is_run (trace s) + k)%nat) /\
  (count_events is_sleep (trace (snd out))
   <= count_events is_sleep (trace s) + (Z.to_nat (n - 1) - a))%nat.
Proof.
  induction k as [|k IH]; intros a s; cbn [seq map for_M].
  - cbn. repeat split; lia.
  - unfold mbind, M_bind.
    destruct (run_test_counts mx w script n (Z.of_nat a) s) as [Hrun Hsleep].
    assert (Hs : (count_events is_sleep
                    (trace (snd (run_test mx w script n (Z.of_nat a) s)))
                  + (Z.to_nat (n - 1) - S a)
                  <= count_events is_sleep (trace s) + (Z.to_nat (n - 1) - a))%nat).
    { destruct (Z.ltb_spec (Z.of_nat a) (n - 1)); lia. }
    destruct (run_test mx w script n (Z.of_nat a) s) as [[[]|e] s1]; cbn [fst snd] in *.
    + destruct (IH (S a) s1) as (H1 & H2 & H3). repeat split; try lia.
      intros Hok. rewrite (H2 Hok). lia.
    + repeat split; try lia. discriminate.
Qed.

(** X3: [run_all_tests] calls the script once per run and never more than
    [num_runs] times: exactly [max(0, num_runs)] times when it returns, fewer
    only when an interrupt ends it. *)
Theorem script_called_once_per_run (mx : nat) (w : world) (script : str) (n : Z) (s : state) :
  (count_events is_run (trace (snd (run_all_tests mx w script n s)))
   <= count_events is_run (trace s) + Z.to_nat n)%nat /\
  (fst (run_all_tests mx w script n s) = Ok tt ->
   count_events is_run (trace (snd (run_all_tests mx w script n s)))
   = (count_events is_run (trace s) + Z.to_nat n)%nat).
Proof.
  unfold run_all_tests, range. unfold mbind at 1 2 3. unfold M_bind at 1 2 3.
  cbn [print emit].
  destruct (run_loop_counts mx w script n (Z.to_nat n) 0
              {| results := results s; trace := trace s ++ [Print (MsgStarting n)] |})
    as (H1 & H2 & _).
  cbn [trace] in *. rewrite count_events_app in *. cbn in *.
  split; [lia|]. intros Hok. rewrite (H2 Hok). lia.
Qed.

(** X4: [run_all_tests] waits at most [num_runs - 1] times; with one run or
    none it never waits. *)
Theorem waits_bounded (mx : nat) (w : world) (script : str) (n : Z) (s : state) :
  (count_events is_sleep (trace (snd (run_all_tests mx w script n s)))
   <= count_events is_sleep (trace s) + Z.to_nat (n - 1))%nat.
Proof.
  unfold run_all_tests, range. unfold mbind at 1. unfold M_bind at 1.
  cbn [print emit].
  destruct (run_loop_counts mx w script n (Z.to_nat n) 0
              {| results := results s; trace := trace s ++ [Print (MsgStarting n)] |})
    as (_ & _ & H3).
  cbn [trace] in *. rewrite count_events_app in *. cbn in *. lia.
Qed.

(** ** The entries of the results *)

Lemma run_test_entry mx w script n i s :
  results (snd (run_test mx w script n i s)) = results s \/
  exists r, results (snd (run_test mx w script n i s)) = results s ++ [r] /\
            produced mx r.
Proof.
  rewrite run_test_eq.
  destruct (script_outcome w _) as [rc out err|e].
  - destruct (negb (rc =? 0)); [by left|].
    destruct (points_of mx out) as [|pt pts] eqn:Hp; [by left|].
    right. eexists. split; [reflexivity|]. exists out. cbn [timeseries phases].
    rewrite Hp. by repeat split.
  - destruct (is_Exception e); by left.
Qed.

Lemma run_loop_entries mx w script n (l : list Z) : forall s,
  exists new,
    results (snd (for_M l (run_test mx w script n) s)) = results s ++ new /\
    Forall (produced mx) new.
Proof.
  induction l as [|i l IH]; intros s; cbn [for_M].
  - exists []. by rewrite app_nil_r.
  - unfold mbind, M_bind.
    pose proof (run_test_entry mx w script n i s) as Hi.
    destruct (run_test mx w script n i s) as [[[]|e] s1]; cbn [snd] in *.
    + destruct (IH s1) as (new & Hnew & Hall).
      destruct Hi as [Hi|(r & Hi & Hr)]; rewrite Hi in Hnew.
      * by exists new.
      * exists (r :: new). rewrite Hnew, <- app_assoc. split; [done | by constructor].
    + destruct Hi as [Hi|(r & Hi & Hr)]; rewrite Hi.
      * exists []. by rewrite app_nil_r.
      * exists [r]. split; [done | by repeat constructor].
Qed.

Lemma run_all_tests_entries mx w script n s :
  exists new,
    results (snd (run_all_tests mx w script n s)) = results s ++ new /\
    Forall (produced mx) new.
Proof.
  unfold run_all_tests. unfold mbind at 1. unfold M_bind at 1. cbn [print emit].
  apply (run_loop_entries mx w script n (range n)
           {| results := results s; trace := trace s ++ [Print (MsgStarting n)] |}).
Qed.

Lemma points_of_nonneg mx output :
  Forall (fun pt : point => 0 <= fst pt /\ float_nonneg (snd pt)) (points_of mx output).
Proof.
  unfold points_of.
  eapply Permutation_Forall; [symmetry; apply sorted_perm|].
  apply omap_Forall. intros g pt Hg Hpt.
  apply findall_update_groups in Hg as (ts & lat & -> & Hts & Hlat).
  simpl in Hpt.
  destruct (py_int mx ts) as [t|] eqn:Ht; [|discriminate].
  destruct (py_float lat) as [f|] eqn:Hf; [|discriminate].
  injection Hpt as <-. simpl.
  split; [eapply py_int_captured | eapply py_float_captured]; eauto.
Qed.

Lemma phases_of_fields mx output :
  Forall (fun p : phase =>
            captured_by is_word (name p) /\ float_nonneg (throughput p) /\ 0 <= elapsed p)
    (phases_of mx output).
Proof.
  unfold phases_of. apply omap_Forall. intros g p Hg Hp.
  apply findall_phase_groups in Hg as (nm & t & e & -> & Hn & Ht & He).
  simpl in Hp.
  destruct (py_float t) as [f|] eqn:Hf; [|discriminate].
  destruct (py_int mx e) as [el|] eqn:Hi; [|discriminate].
  injection Hp as <-. simpl.
  split; [exact Hn|].
  split; [eapply py_float_captured | eapply py_int_captured]; eauto.
Qed.

(** X5: [run_all_tests] only appends to [self.results]: the entries that
    were there stay, in place and unchanged, also when the analyzer is
    run a second time or the loop is interrupted. *)
Theorem results_only_grow (mx : nat) (w : world) (script : str) (n : Z) (s : state) :
  exists new, results (snd (run_all_tests mx w script n s)) = results s ++ new.
Proof. destruct (run_all_tests_entries mx w script n s) as (new & H & _). eauto. Qed.

(** X6: every entry that [run_all_tests] stores holds a time series that
    is sorted ascending by timestamp, with timestamps and latencies that are
    not negative, and phases whose name is a non-empty word and whose
    throughput and elapsed time are not negative. *)
Theorem stored_entries_well_formed (mx : nat) (w : world) (script : str) (n : Z) (tr : list event) :
  Forall (fun r =>
            StronglySorted timestamp_le (timeseries r) /\
            Forall (fun pt : point => 0 <= fst pt /\ float_nonneg (snd pt)) (timeseries r) /\
            Forall (fun p : phase =>
                      captured_by is_word (name p) /\ float_nonneg (throughput p) /\
                      0 <= elapsed p) (phases r))
    (results (snd (run_all_tests mx w script n (init_state tr)))).
Proof.
  destruct (run_all_tests_entries mx w script n (init_state tr)) as (new & -> & Hall).
  cbn [results init_state app].
  eapply Forall_impl; [exact Hall|]. cbn beta.
  intros r (out & Hts & Hph & _). rewrite Hts, Hph.
  split; [apply sorted_timestamps|].
  split; [apply points_of_nonneg | apply phases_of_fields].
Qed.

Lemma nonempty_runs_all (rs : list run_result) :
  Forall (fun r => timeseries r <> []) rs -> nonempty_runs rs = rs.
Proof.
  unfold nonempty_runs. induction 1 as [|r rs Hr Hrs IH]; cbn [List.filter]; [done|].
  destruct (timeseries r); [done|]. by rewrite IH.
Qed.

Lemma all_latencies_nonempty (rs : list run_result) :
  Forall (fun r => timeseries r <> []) rs -> rs <> [] -> all_latencies rs <> [].
Proof.
  intros Hall Hne. destruct Hall as [|r rs Hr Hrs]; [done|].
  unfold all_latencies. cbn [flat_map].
  destruct (timeseries r); [done|]. discriminate.
Qed.

(** X7: on the results of [run_all_tests] the guards of the reporting code
    never fire: no entry is skipped for an empty time series
    ([if not timeseries: continue]), and as soon as there is an entry there
    are latencies for the overall statistics and the percentile. *)
Theorem reporting_guards_never_fire (mx : nat) (w : world) (script : str) (n : Z) (tr : list event) :
  nonempty_runs (results (snd (run_all_tests mx w script n (init_state tr))))
  = results (snd (run_all_tests mx w script n (init_state tr))) /\
  (results (snd (run_all_tests mx w script n (init_state tr))) <> [] ->
   all_latencies (results (snd (run_all_tests mx w script n (init_state tr)))) <> []).
Proof.
  destruct (run_all_tests_entries mx w script n (init_state tr)) as (new & -> & Hall).
  cbn [results init_state app].
  assert (Hne : Forall (fun r => timeseries r <> []) new).
  { eapply Forall_impl; [exact Hall|]. by intros r (out & _ & _ & H). }
  split; [by apply nonempty_runs_all | by apply all_latencies_nonempty].
Qed.

(** X8: every phase that [extract_phase_info] returns has a non-empty name
    made of word characters, a throughput that is neither negative nor NaN,
    and an elapsed time [>= 0]. *)
Theorem phases_well_formed (mx : nat) (output : str) :
  exists ps,
    extract_phase_info mx output = Ok ps /\
    Forall (fun p : phase =>
              captured_by is_word (name p) /\ float_nonneg (throughput p) /\
              0 <= elapsed p) ps.
Proof.
  eexists. split; [apply extract_phase_info_eq|]. apply phases_of_fields.
Qed.

(** ** The dictionary and the lists of [plot_average_latency] *)

(** X9: the dictionary that [plot_average_latency] fills maps a timestamp
    to exactly the latencies reported at that timestamp, run after run and
    in the order of each series; a timestamp that no run reports is not a
    key, and no key holds an empty list. *)
Theorem timestamp_latencies_exact (results : list run_result) (ts : Z) :
  timestamp_latencies results !! ts =
  match contributions ts results with
  | [] => None
  | _ :: _ => Some (contributions ts results)
  end.
Proof.
  pose proof (fold_runs_lookup results ∅ ts) as Hl.
  rewrite lookup_empty in Hl. cbn [default app] in Hl.
  fold (timestamp_latencies results) in Hl.
  destruct (timestamp_latencies results !! ts) as [l|] eqn:Hts; cbn [default] in Hl.
  - rewrite <- Hl. destruct l; [|done].
    exfalso. unfold timestamp_latencies in Hts.
    eapply (fold_runs_nonempty results ∅); [|exact Hts|done].
    intros k l0. by rewrite lookup_empty.
  - by rewrite <- Hl.
Qed.

Lemma insert_sorted_Z x l :
  StronglySorted Z.le l -> StronglySorted Z.le (insert_sorted Z.ltb x l).
Proof.
  induction 1 as [|y l Hl IH Hy]; cbn [insert_sorted]; [repeat constructor|].
  destruct (Z.ltb_spec y x).
  - constructor; [exact IH|].
    eapply Permutation_Forall; [symmetry; apply insert_sorted_perm|].
    constructor; [lia | exact Hy].
  - constructor; [by constructor|].
    constructor; [done|]. eapply Forall_impl; [exact Hy|]. cbn beta. lia.
Qed.

Lemma sorted_Z l : StronglySorted Z.le (sorted Z.ltb l).
Proof.
  induction l as [|x l IH]; cbn [sorted fold_right]; [constructor|].
  by apply insert_sorted_Z.
Qed.

Lemma StronglySorted_le_lt l :
  StronglySorted Z.le l -> NoDup l -> StronglySorted Z.lt l.
Proof.
  induction 1 as [|x l Hl IH Hx]; intros Hnd; [constructor|].
  apply NoDup_cons in Hnd as [Hnin Hnd].
  constructor; [by apply IH|].
  apply List.Forall_forall. intros y Hy.
  rewrite List.Forall_forall in Hx. specialize (Hx y Hy).
  assert (x <> y) by (intros ->; apply Hnin; by apply list_elem_of_In).
  lia.
Qed.

Lemma map_fst_fmap {A B} (l : list (A * B)) : map fst l = l.*1.
Proof. induction l as [|x l IH]; [done|]. cbn. by rewrite IH. Qed.

(** X10: the timestamps that [plot_average_latency] plots are strictly
    ascending (none twice), they are exactly the timestamps at which some
    run reports a latency, and the lists of averages and of deviations
    have one value for each of them. *)
Theorem average_latency_shape (results : list run_result) :
  StronglySorted Z.lt (fst (fst (average_latency results))) /\
  (forall ts, In ts (fst (fst (average_latency results))) <->
              contributions ts results <> []) /\
  length (snd (fst (average_latency results)))
  = length (fst (fst (average_latency results))) /\
  length (snd (average_latency results))
  = length (fst (fst (average_latency results))).
Proof.
  unfold average_latency. cbn [fst snd].
  split; [|split; [|by rewrite !length_map]].
  - apply StronglySorted_le_lt; [apply sorted_Z|].
    rewrite sorted_perm, map_fst_fmap. apply NoDup_fst_map_to_list.
  - intros ts. split.
    + apply timestamp_latencies_nonempty.
    + intros Hc. eapply Permutation_in; [symmetry; apply sorted_perm|].
      by apply timestamp_latencies_key.
Qed.

(** ** One run, once more *)

(** X11: [run_single_test] hands on an output exactly when the script
    completes with return code 0, and then it is the captured standard
    output, unchanged; the results are never touched. *)
Theorem output_only_on_return_code_0
    (w : world) (script : str) (n i : Z) (s : state) (out : str) :
  (fst (run_single_test w script n i s) = Ok (Some out) <->
   exists err,
     script_outcome w (trace s ++ [Print (MsgRunning (i + 1) n)]) = Completed 0 out err) /\
  results (snd (run_single_test w script n i s)) = results s.
Proof.
  rewrite run_single_test_eq.
  destruct (script_outcome w _) as [rc out' err|e].
  - destruct (Z.eqb_spec rc 0) as [->|Hrc]; cbn [negb fst snd with_trace results].
    + split; [|done]. split.
      * intros [= ->]. eauto.
      * intros (err' & [= -> _]). done.
    + split; [|done]. split; [discriminate|]. intros (err' & [= ? _]). done.
  - destruct (is_Exception e); cbn [fst snd with_trace results];
      (split; [|done]); split; try discriminate; intros (err' & [=]).
Qed.

(** X12: a run whose output holds at least one well-formed record is
    stored as one new entry: numbered [i + 1], with the sorted points and
    the phases of the output, stamped with the clock read after the run. *)
Theorem run_with_records_is_stored
    (mx : nat) (w : world) (script : str) (n i : Z) (s : state)
    (out err : str) (data : list point) (ps : list phase) :
  script_outcome w (trace s ++ [Print (MsgRunning (i + 1) n)]) = Completed 0 out err ->
  extract_timeseries_data mx out = Ok data ->
  extract_phase_info mx out = Ok ps ->
  data <> [] ->
  fst (run_test mx w script n i s) = Ok tt /\
  results (snd (run_test mx w script n i s))
  = results s ++
    [{| run_id := i + 1; timeseries := data; phases := ps;
        timestamp := now_isoformat w
                       (trace s ++ [Print (MsgRunning (i + 1) n); RunScript script]) |}].
Proof.
  intros Ho Hd Hp Hne.
  rewrite extract_timeseries_data_eq in Hd. injection Hd as <-.
  rewrite extract_phase_info_eq in Hp. injection Hp as <-.
  rewrite run_test_eq, Ho. cbn [negb Z.eqb].
  fold (points_of mx out) in *. fold (phases_of mx out).
  destruct (points_of mx out) as [|pt pts] eqn:Hpts; [done|]. done.
Qed.

Lemma run_with_records_is_stored_witness :
  fst (run_test 4300 (scripted_world [Completed 0 (one_record "1.5") []]) test_sh 3 0
         (init_state [])) = Ok tt /\
  results (snd (run_test 4300 (scripted_world [Completed 0 (one_record "1.5") []])
                  test_sh 3 0 (init_state [])))
  = results (init_state []) ++
    [{| run_id := 0 + 1;
        timeseries := [(0, S754_finite false 6755399441055744 (-52))];
        phases := [];
        timestamp := now_isoformat (scripted_world [Completed 0 (one_record "1.5") []])
                       (trace (init_state [])
                          ++ [Print (MsgRunning (0 + 1) 3); RunScript test_sh]) |}].
Proof.
  apply (run_with_records_is_stored 4300
           (scripted_world [Completed 0 (one_record "1.5") []]) test_sh 3 0
           (init_state []) (one_record "1.5") []);
    [vm_compute; reflexivity | vm_compute; reflexivity | vm_compute; reflexivity
    | discriminate].
Defined.

Lemma failing_loop mx w script n (l : list Z) : forall s,
  (forall tr, run_fails (script_outcome w tr) = true) ->
  fst (for_M l (run_test mx w script n) s) = Ok tt /\
  results (snd (for_M l (run_test mx w script n) s)) = results s.
Proof.
  induction l as [|i l IH]; intros s Hfail; cbn [for_M]; [done|].
  unfold mbind, M_bind. rewrite run_test_eq.
  pose proof (Hfail (trace s ++ [Print (MsgRunning (i + 1) n)])) as Hi.
  destruct (script_outcome w _) as [rc out err|e]; cbn [run_fails] in Hi;
    rewrite Hi;
    match goal with
    | |- context [for_M l _ ?s1] => destruct (IH s1 Hfail) as [H1 H2]
    end; by rewrite H1, H2.
Qed.

(** X13: when every call of the script fails, [run_all_tests] still returns
    normally and the results are what they were: no entry is stored. *)
Theorem all_runs_fail_no_entry (mx : nat) (w : world) (script : str) (n : Z) (s : state) :
  (forall tr, run_fails (script_outcome w tr) = true) ->
  fst (run_all_tests mx w script n s) = Ok tt /\
  results (snd (run_all_tests mx w script n s)) = results s.
Proof.
  intros Hfail. unfold run_all_tests. unfold mbind at 1 2. unfold M_bind at 1 2.
  cbn [print emit].
  apply (failing_loop mx w script n (range n)
           {| results := results s; trace := trace s ++ [Print (MsgStarting n)] |} Hfail).
Qed.

Lemma all_runs_fail_no_entry_witness :
  fst (run_all_tests 4300 (scripted_world []) test_sh 3 (init_state [])) = Ok tt /\
  results (snd (run_all_tests 4300 (scripted_world []) test_sh 3 (init_state [])))
  = results (init_state []).
Proof.
  apply (all_runs_fail_no_entry 4300 (scripted_world []) test_sh 3 (init_state [])).
  intros tr. cbn. by destruct (length (List.filter is_run tr)).
Defined.

(** ** [main] *)

Lemma main_eq mx w args :
  main mx w args =
  if negb (path_exists w (script args)) then
    print (MsgScriptNotFound (script args));; raise (SystemExit 1)
  else
    perform w (Chmod (script args) 493);;
    new_analyzer;;
    try_except (analysis mx w args) on_exception.
Proof. reflexivity. Qed.

(** [main] once the script is there and executable: the analysis on a new
    analyzer, under the two [except] clauses. *)
Lemma main_started mx w args s :
  path_exists w (script args) = true ->
  io_error w (trace s) (Chmod (script args) 493) = None ->
  main mx w args s
  = try_except (analysis mx w args) on_exception
      (init_state (trace s ++ [Chmod (script args) 493])).
Proof.
  intros Hp Hc. rewrite main_eq, Hp. cbn [negb].
  unfold mbind, M_bind, perform. rewrite Hc. reflexivity.
Qed.

(** X14: once the script is there and could be made executable, [main]
    ends in one of two ways only: it returns, or it exits through
    [sys.exit]; no [Exception] and no interrupt escapes it. *)
Theorem main_returns_or_exits (mx : nat) (w : world) (args : arguments) (s : state) :
  path_exists w (script args) = true ->
  io_error w (trace s) (Chmod (script args) 493) = None ->
  fst (main mx w args s) = Ok tt \/
  exists status, fst (main mx w args s) = Err (SystemExit status).
Proof.
  intros Hp Hc. rewrite (main_started mx w args s Hp Hc). unfold try_except.
  destruct (analysis mx w args _) as [[[]|e] s1]; [by left|].
  right. destruct e; cbn; eauto.
Qed.

Lemma main_returns_or_exits_witness :
  fst (main 4300 (scripted_world [Raised KeyboardInterrupt]) default_arguments
         (init_state [])) = Ok tt \/
  exists status,
    fst (main 4300 (scripted_world [Raised KeyboardInterrupt]) default_arguments
           (init_state [])) = Err (SystemExit status).
Proof.
  apply (main_returns_or_exits 4300 (scripted_world [Raised KeyboardInterrupt])
           default_arguments (init_state [])); reflexivity.
Defined.

(** X22: [os.chmod] stands outside the [try] block: when it raises, [main]
    lets the exception through as it is, with no message of its own, no
    run of the script and no file. *)
Theorem chmod_failure_is_not_caught
    (mx : nat) (w : world) (args : arguments) (s : state) (e : exn) :
  path_exists w (script args) = true ->
  io_error w (trace s) (Chmod (script args) 493) = Some e ->
  main mx w args s = (Err e, s).
Proof.
  intros Hp Hc. rewrite main_eq, Hp. cbn [negb].
  unfold mbind, M_bind, perform. by rewrite Hc.
Qed.

Lemma chmod_failure_is_not_caught_witness :
  main 4300 read_only_world default_arguments (init_state [])
  = (Err (OtherException "PermissionError"), init_state []).
Proof.
  apply (chmod_failure_is_not_caught 4300 read_only_world default_arguments
           (init_state [])); reflexivity.
Defined.

Lemma run_events_write_nothing script evs :
  Forall (run_event script) evs ->
  count_events is_write evs = 0%nat /\ count_events is_figure evs = 0%nat.
Proof.
  induction 1 as [|ev evs Hev Hevs [IH1 IH2]]; [done|].
  unfold count_events in *. cbn [List.filter].
  destruct ev; cbn in Hev |- *; try contradiction; done.
Qed.

(** X15: an interrupt during the runs ends [main] with the message and
    exit status 1 at once: whatever the runs before it have gathered,
    no file is written and no figure is drawn. *)
Theorem interrupt_discards_results
    (mx : nat) (w : world) (args : arguments) (s s1 : state) :
  path_exists w (script args) = true ->
  io_error w (trace s) (Chmod (script args) 493) = None ->
  run_all_tests mx w (script args) (runs args)
    (init_state (trace s ++ [Chmod (script args) 493]))
  = (Err KeyboardInterrupt, s1) ->
  main mx w args s = (Err (SystemExit 1), with_trace s1 [Print MsgInterrupted]) /\
  count_events is_write (trace (snd (main mx w args s))) = count_events is_write (trace s) /\
  count_events is_figure (trace (snd (main mx w args s))) = count_events is_figure (trace s).
Proof.
  intros Hp Hc Hr.
  assert (Hm : main mx w args s
               = (Err (SystemExit 1), with_trace s1 [Print MsgInterrupted])).
  { rewrite (main_started mx w args s Hp Hc).
    unfold try_except, analysis. unfold mbind at 1. unfold M_bind at 1.
    rewrite Hr. reflexivity. }
  split; [exact Hm|]. rewrite Hm. cbn [snd with_trace trace].
  destruct (run_all_tests_run_events mx w (script args) (runs args)
              (init_state (trace s ++ [Chmod (script args) 493]))) as (evs & Ht & Hall).
  rewrite Hr in Ht. cbn [snd init_state trace] in Ht. rewrite Ht.
  destruct (run_events_write_nothing _ _ Hall) as [Hw Hf].
  rewrite !count_events_app, Hw, Hf. cbn. lia.
Qed.

Lemma interrupt_discards_results_witness :
  main 4300 interrupted_world default_arguments (init_state [])
  = (Err (SystemExit 1),
     with_trace
       (snd (run_all_tests 4300 interrupted_world (script default_arguments)
               (runs default_arguments)
               (init_state (trace (init_state [])
                              ++ [Chmod (script default_arguments) 493]))))
       [Print MsgInterrupted]) /\
  count_events is_write
    (trace (snd (main 4300 interrupted_world default_arguments (init_state []))))
  = count_events is_write (trace (init_state [])) /\
  count_events is_figure
    (trace (snd (main 4300 interrupted_world default_arguments (init_state []))))
  = count_events is_figure (trace (init_state [])).
Proof.
  apply (interrupt_discards_results 4300 interrupted_world default_arguments
           (init_state [])); vm_compute; reflexivity.
Defined.

Lemma with_trace_nil s : with_trace s [] = s.
Proof. destruct s. unfold with_trace. cbn. by rewrite app_nil_r. Qed.

Lemma with_trace_app s a b : with_trace (with_trace s a) b = with_trace s (a ++ b).
Proof. unfold with_trace. cbn. by rewrite app_assoc. Qed.

Lemma print_eq m s : print m s = (Ok tt, with_trace s [Print m]).
Proof. reflexivity. Qed.

Lemma perform_eq w ev s :
  io_error w (trace s) ev = None -> perform w ev s = (Ok tt, with_trace s [ev]).
Proof. intros H. unfold perform. by rewrite H. Qed.

Lemma for_M_print {A} (g : A -> message) (l : list A) : forall s,
  for_M l (fun x => print (g x)) s = (Ok tt, with_trace s (map (fun x => Print (g x)) l)).
Proof.
  induction l as [|x l IH]; intros s; cbn [for_M map].
  - by rewrite with_trace_nil.
  - unfold mbind, M_bind. rewrite print_eq, IH, with_trace_app. reflexivity.
Qed.

(** X16: when writing [latency_data.json] raises an [Exception], [main]
    prints the error and exits with status 1: no summary is printed and
    no figure is drawn. *)
Theorem failed_write_ends_analysis
    (mx : nat) (w : world) (args : arguments) (s s1 : state) (e : exn) :
  path_exists w (script args) = true ->
  io_error w (trace s) (Chmod (script args) 493) = None ->
  run_all_tests mx w (script args) (runs args)
    (init_state (trace s ++ [Chmod (script args) 493]))
  = (Ok tt, s1) ->
  io_error w (trace s1) (WriteJson "latency_data.json" (results s1)) = Some e ->
  is_Exception e = true ->
  main mx w args s = (Err (SystemExit 1), with_trace s1 [Print (MsgAnalysisError e)]).
Proof.
  intros Hp Hc Hr Hio He.
  rewrite (main_started mx w args s Hp Hc).
  unfold try_except, analysis. unfold mbind at 1. unfold M_bind at 1. rewrite Hr.
  unfold save_raw_data, get_results, perform. unfold mbind, M_bind. cbn [results snd fst].
  rewrite Hio. destruct e; try discriminate He; reflexivity.
Qed.

Lemma failed_write_ends_analysis_witness :
  main 4300 full_disk_world default_arguments (init_state [])
  = (Err (SystemExit 1),
     with_trace
       (snd (run_all_tests 4300 full_disk_world (script default_arguments)
               (runs default_arguments)
               (init_state (trace (init_state [])
                              ++ [Chmod (script default_arguments) 493]))))
       [Print (MsgAnalysisError (OtherException "OSError"))]).
Proof.
  apply (failed_write_ends_analysis 4300 full_disk_world default_arguments
           (init_state [])); vm_compute; reflexivity.
Defined.

Lemma adds_save_raw_data (P : event -> Prop) w file :
  (forall m, P (Print m)) -> (forall rs, P (WriteJson file rs)) ->
  adds P (save_raw_data w file).
Proof.
  intros Hp Hw. unfold save_raw_data, print.
  apply adds_bind; [apply adds_get_results | intros rs].
  apply adds_bind; [by apply adds_perform | intros _; by apply adds_emit].
Qed.

Lemma adds_print_summary (P : event -> Prop) :
  (forall m, P (Print m)) -> adds P print_summary.
Proof.
  intros Hp. unfold print_summary, print.
  apply adds_bind; [apply adds_get_results | intros [|r rs]]; [by apply adds_emit|].
  apply adds_bind; [by apply adds_emit | intros _].
  apply adds_bind; [apply adds_for_M; intros x; by apply adds_emit | intros _].
  destruct (all_latencies (r :: rs)); [apply adds_ret | by apply adds_emit].
Qed.

Lemma adds_on_exception (P : event -> Prop) e h :
  (forall m, P (Print m)) -> on_exception e = Some h -> adds P h.
Proof.
  intros Hp He. unfold print in He.
  destruct e; cbn in He; try discriminate; injection He as <-;
    (apply adds_bind; [by apply adds_emit | intros _; apply adds_raise]).
Qed.

(** X17: with [--no-plot], [main] never saves or shows a figure, whatever
    the script and the file system do. *)
Theorem no_plot_draws_nothing (mx : nat) (w : world) (args : arguments) (s : state) :
  no_plot args = true ->
  exists evs,
    trace (snd (main mx w args s)) = trace s ++ evs /\
    Forall (fun ev => is_figure ev = false) evs.
Proof.
  intros Hnp. revert s.
  change (adds (fun ev => is_figure ev = false) (main mx w args)).
  rewrite main_eq. destruct (negb (path_exists w (script args))).
  - apply adds_bind; [by apply adds_emit | intros _; apply adds_raise].
  - apply adds_bind; [by apply adds_perform | intros _].
    apply adds_bind; [apply adds_new_analyzer | intros _].
    apply adds_try_except.
    + unfold analysis. rewrite Hnp. cbn [negb].
      apply adds_bind; [by apply adds_run_all_tests | intros _].
      apply adds_bind; [by apply adds_save_raw_data | intros _].
      apply adds_bind; [by apply adds_print_summary | intros _; apply adds_ret].
    + intros e h He. by apply (adds_on_exception _ e h).
Qed.

Lemma no_plot_draws_nothing_witness :
  exists evs,
    trace (snd (main 4300 (scripted_world [Completed 0 (one_record "1.5") []])
                  {| runs := 1; script := test_sh; no_plot := true |} (init_state [])))
    = trace (init_state []) ++ evs /\
    Forall (fun ev => is_figure ev = false) evs.
Proof.
  apply (no_plot_draws_nothing 4300 (scripted_world [Completed 0 (one_record "1.5") []])
           {| runs := 1; script := test_sh; no_plot := true |} (init_state [])).
  reflexivity.
Defined.

Lemma bind_ok {A B} (m : M A) (f : A -> M B) s a s' :
  m s = (Ok a, s') -> (m ≫= f) s = f a s'.
Proof. intros H. unfold mbind, M_bind. by rewrite H. Qed.

Lemma save_raw_data_eq w file s :
  io_works w ->
  save_raw_data w file s
  = (Ok tt, with_trace s [WriteJson file (results s); Print (MsgRawSaved file)]).
Proof.
  intros Hio. unfold save_raw_data.
  rewrite (bind_ok _ _ s (results s) s) by reflexivity.
  rewrite (bind_ok _ _ s tt _ (perform_eq w _ s (Hio _ _))).
  by rewrite print_eq, with_trace_app.
Qed.

Lemma print_summary_eq s :
  Forall (fun r => timeseries r <> []) (results s) ->
  print_summary s
  = (Ok tt,
     with_trace s
       match results s with
       | [] => [Print MsgNoSummaryData]
       | _ :: _ =>
           Print MsgSummaryHeader ::
           map (fun r => Print (MsgRunStats (run_id r) (map snd (timeseries r))))
             (results s) ++
           [Print (MsgOverallStats (all_latencies (results s)))]
       end).
Proof.
  intros Hne. unfold print_summary.
  rewrite (bind_ok _ _ s (results s) s) by reflexivity.
  destruct (results s) as [|r rs] eqn:Hrs; [reflexivity|].
  pose proof (all_latencies_nonempty (r :: rs) Hne ltac:(done)) as Hlat.
  rewrite (nonempty_runs_all _ Hne).
  rewrite (bind_ok _ _ s tt _ (print_eq _ s)).
  rewrite (bind_ok _ _ _ tt _ (for_M_print _ _ _)).
  destruct (all_latencies (r :: rs)) as [|x xs]; [done|].
  by rewrite print_eq, !with_trace_app.
Qed.

Lemma plot_latency_over_time_eq w file s :
  io_works w ->
  Forall (fun r => timeseries r <> []) (results s) ->
  plot_latency_over_time w file s
  = (Ok tt,
     with_trace s
       match results s with
       | [] => [Print MsgNoPlotData]
       | _ :: _ =>
           [SaveRunsFigure file (map (fun r => (run_id r, timeseries r)) (results s));
            Print (MsgPlotSaved file); ShowFigure]
       end).
Proof.
  intros Hio Hne. unfold plot_latency_over_time.
  rewrite (bind_ok _ _ s (results s) s) by reflexivity.
  destruct (results s) as [|r rs] eqn:Hrs; [reflexivity|].
  rewrite (nonempty_runs_all _ Hne).
  rewrite (bind_ok _ _ s tt _ (perform_eq w _ s (Hio _ _))).
  rewrite (bind_ok _ _ _ tt _ (print_eq _ _)).
  by rewrite (perform_eq w _ _ (Hio _ _)), !with_trace_app.
Qed.

Lemma plot_average_latency_eq w file s :
  io_works w ->
  plot_average_latency w file s
  = (Ok tt,
     with_trace s
       match results s with
       | [] => [Print MsgNoPlotData]
       | _ :: _ =>
           [SaveAverageFigure file (average_latency (results s));
            Print (MsgAveragePlotSaved file); ShowFigure]
       end).
Proof.
  intros Hio. unfold plot_average_latency.
  rewrite (bind_ok _ _ s (results s) s) by reflexivity.
  destruct (results s) as [|r rs] eqn:Hrs; [reflexivity|].
  rewrite (bind_ok _ _ s tt _ (perform_eq w _ s (Hio _ _))).
  rewrite (bind_ok _ _ _ tt _ (print_eq _ _)).
  by rewrite (perform_eq w _ _ (Hio _ _)), !with_trace_app.
Qed.

(** X18: when the runs return and every file and plotting call succeeds,
    [main] returns after the report in this order: the JSON file with all
    entries, the summary (one block for each entry, then the overall
    statistics), and without [--no-plot] the figure of the runs and the
    figure of the averages; without any entry it writes an empty list and
    prints that there is no data, once for the summary and once for each
    figure. *)
Theorem report_after_the_runs
    (mx : nat) (w : world) (args : arguments) (s s1 : state) :
  path_exists w (script args) = true ->
  io_works w ->
  run_all_tests mx w (script args) (runs args)
    (init_state (trace s ++ [Chmod (script args) 493]))
  = (Ok tt, s1) ->
  main mx w args s
  = (Ok tt, with_trace s1 (report_events (no_plot args) (results s1))).
Proof.
  intros Hp Hio Hr.
  rewrite (main_started mx w args s Hp (Hio _ _)).
  destruct (run_all_tests_entries mx w (script args) (runs args)
              (init_state (trace s ++ [Chmod (script args) 493]))) as (new & Hnew & Hall).
  rewrite Hr in Hnew. cbn [snd init_state results app] in Hnew.
  assert (Hne : Forall (fun r => timeseries r <> []) (results s1)).
  { rewrite Hnew. eapply Forall_impl; [exact Hall|]. by intros r (out & _ & _ & H). }
  assert (Ha : analysis mx w args (init_state (trace s ++ [Chmod (script args) 493]))
               = (Ok tt, with_trace s1 (report_events (no_plot args) (results s1)))).
  { unfold analysis.
    rewrite (bind_ok _ _ _ tt _ Hr).
    rewrite (bind_ok _ _ _ tt _ (save_raw_data_eq w _ s1 Hio)).
    rewrite (bind_ok _ _ _ tt _ (print_summary_eq (with_trace s1 _) Hne)).
    rewrite with_trace_app. cbn [with_trace results].
    unfold report_events.
    destruct (no_plot args); cbn [negb].
    - destruct (results s1); cbn [mret M_ret]; by rewrite app_nil_r.
    - rewrite (bind_ok _ _ _ tt _ (plot_latency_over_time_eq w _ (with_trace s1 _) Hio Hne)).
      rewrite plot_average_latency_eq by exact Hio.
      rewrite !with_trace_app. cbn [with_trace results].
      destruct (results s1); cbn [app]; by rewrite <- ?app_assoc. }
  unfold try_except. by rewrite Ha.
Qed.

Lemma report_after_the_runs_witness :
  main 4300 (scripted_world [Completed 0 (one_record "1.5") []])
    {| runs := 1; script := test_sh; no_plot := false |} (init_state [])
  = (Ok tt,
     with_trace
       (snd (run_all_tests 4300 (scripted_world [Completed 0 (one_record "1.5") []])
               test_sh 1 (init_state (trace (init_state []) ++ [Chmod test_sh 493]))))
       (report_events false
          (results
             (snd (run_all_tests 4300 (scripted_world [Completed 0 (one_record "1.5") []])
                     test_sh 1
                     (init_state (trace (init_state []) ++ [Chmod test_sh 493]))))))).
Proof.
  apply (report_after_the_runs 4300 (scripted_world [Completed 0 (one_record "1.5") []])
           {| runs := 1; script := test_sh; no_plot := false |} (init_state []));
    [reflexivity | intros tr ev; reflexivity | vm_compute; reflexivity].
Defined.

(** ** Runs that all return *)

Lemma delay_sleeps i n :
  count_events is_sleep (delay i n) = if i <? n - 1 then 1%nat else 0%nat.
Proof. unfold delay. by destruct (i <? n - 1). Qed.

Lemma returning_loop_waits mx w script n k : forall a s,
  (forall tr, exists out err, script_outcome w tr = Completed 0 out err) ->
  fst (for_M (map Z.of_nat (seq a k)) (run_test mx w script n) s) = Ok tt /\
  count_events is_sleep
    (trace (snd (for_M (map Z.of_nat (seq a k)) (run_test mx w script n) s)))
  = (count_events is_sleep (trace s) + (Nat.min (a + k) (Z.to_nat (n - 1)) - a))%nat.
Proof.
  induction k as [|k IH]; intros a s Hret; cbn [seq map for_M].
  - cbn. split; [done | lia].
  - unfold mbind, M_bind. rewrite run_test_eq.
    destruct (Hret (trace s ++ [Print (MsgRunning (Z.of_nat a + 1) n)]))
      as (out & err & ->).
    cbn [negb Z.eqb].
    destruct (points_of mx out) as [|pt pts];
      match goal with
      | |- context [for_M _ _ ?s1] => destruct (IH (S a) s1 Hret) as [H1 H2]
      end; rewrite H1, H2; (split; [done|]);
      cbn [trace with_trace]; rewrite !count_events_app, delay_sleeps;
      cbn [count_events List.filter is_sleep length];
      destruct (Z.ltb_spec (Z.of_nat a) (n - 1)); lia.
Qed.

(** X19: when every call of the script returns with code 0, [run_all_tests]
    returns and has waited exactly [num_runs - 1] times: once between each
    run and the next, and not after the last. *)
Theorem waits_between_returning_runs
    (mx : nat) (w : world) (script : str) (n : Z) (s : state) :
  (forall tr, exists out err, script_outcome w tr = Completed 0 out err) ->
  fst (run_all_tests mx w script n s) = Ok tt /\
  count_events is_sleep (trace (snd (run_all_tests mx w script n s)))
  = (count_events is_sleep (trace s) + Z.to_nat (n - 1))%nat.
Proof.
  intros Hret. unfold run_all_tests, range. unfold mbind at 1 2. unfold M_bind at 1 2.
  cbn [print emit].
  destruct (returning_loop_waits mx w script n (Z.to_nat n) 0
              {| results := results s; trace := trace s ++ [Print (MsgStarting n)] |} Hret)
    as [H1 H2].
  rewrite H1, H2. cbn [trace]. rewrite count_events_app. cbn. split; [done | lia].
Qed.

(** The script always prints the same record. *)
Lemma waits_between_returning_runs_witness :
  fst (run_all_tests 4300 full_disk_world test_sh 3 (init_state [])) = Ok tt /\
  count_events is_sleep
    (trace (snd (run_all_tests 4300 full_disk_world test_sh 3 (init_state []))))
  = (count_events is_sleep (trace (init_state [])) + Z.to_nat (3 - 1))%nat.
Proof.
  apply (waits_between_returning_runs 4300 full_disk_world test_sh 3 (init_state [])).
  intros tr. by exists (one_record "1.5"), [].
Defined.

Lemma recording_loop_entries mx w script n k : forall a s,
  (forall tr, exists out err,
     script_outcome w tr = Completed 0 out err /\ points_of mx out <> []) ->
  exists new,
    results (snd (for_M (map Z.of_nat (seq a k)) (run_test mx w script n) s))
    = results s ++ new /\
    map run_id new = map (fun i => Z.of_nat i + 1) (seq a k).
Proof.
  induction k as [|k IH]; intros a s Hrec; cbn [seq map for_M].
  - exists []. by rewrite app_nil_r.
  - unfold mbind, M_bind. rewrite run_test_eq.
    destruct (Hrec (trace s ++ [Print (MsgRunning (Z.of_nat a + 1) n)]))
      as (out & err & -> & Hne).
    cbn [negb Z.eqb].
    destruct (points_of mx out) as [|pt pts] eqn:Hp; [done|].
    match goal with
    | |- context [for_M _ _ ?s1] => destruct (IH (S a) s1 Hrec) as (new & Hnew & Hids)
    end.
    rewrite Hnew. cbn [results]. rewrite <- app_assoc. eexists. split; [reflexivity|].
    cbn [app map run_id]. by rewrite Hids.
Qed.

(** X20: when every call of the script returns with code 0 and at least
    one well-formed record, a new analyzer ends with exactly one entry for
    each run, numbered 1, 2, ..., [num_runs] in this order. *)
Theorem every_returning_run_is_stored
    (mx : nat) (w : world) (script : str) (n : Z) (tr0 : list event) :
  (forall tr, exists out err,
     script_outcome w tr = Completed 0 out err /\ points_of mx out <> []) ->
  map run_id (results (snd (run_all_tests mx w script n (init_state tr0))))
  = map (fun i => i + 1) (range n).
Proof.
  intros Hrec. unfold run_all_tests, range. unfold mbind at 1. unfold M_bind at 1.
  cbn [print emit].
  destruct (recording_loop_entries mx w script n (Z.to_nat n) 0
              {| results := results (init_state tr0);
                 trace := trace (init_state tr0) ++ [Print (MsgStarting n)] |} Hrec)
    as (new & -> & Hids).
  cbn [results init_state app]. by rewrite Hids, map_map.
Qed.

Lemma every_returning_run_is_stored_witness :
  map run_id (results (snd (run_all_tests 4300 full_disk_world test_sh 3 (init_state []))))
  = map (fun i => i + 1) (range 3).
Proof.
  apply (every_returning_run_is_stored 4300 full_disk_world test_sh 3 []).
  intros tr. exists (one_record "1.5"), []. split; [reflexivity | by vm_compute].
Defined.

(** ** Points with equal timestamps *)

Lemma SFcompare_antisym x y :
  float_nonneg x -> float_nonneg y ->
  exists c, SFcompare x y = Some c /\ SFcompare y x = Some (CompOpp c).
Proof.
  destruct x as [[]|[]| |[] mx ex], y as [[]|[]| |[] my ey]; cbn;
    try contradiction; intros _ _; try (eexists; split; reflexivity).
  rewrite (Z.compare_antisym ex ey).
  destruct (ex ?= ey); cbn; try (eexists; split; reflexivity).
  exists (Pos.compare_cont Eq mx my). split; [done|].
  by rewrite Pos.compare_cont_antisym.
Qed.

Lemma point_lt_le a b : point_lt a b = true -> point_le a b.
Proof.
  unfold point_lt, point_le, float_eq, float_lt, float_le, SFeqb, SFltb, SFleb.
  destruct (Z.eqb_spec (fst a) (fst b)) as [Heq|Hne].
  - destruct (SFcompare (snd a) (snd b)) as [[]|]; try discriminate. by right.
  - intros H. apply Z.ltb_lt in H. by left.
Qed.

Lemma point_not_lt_le a b :
  float_nonneg (snd a) -> float_nonneg (snd b) ->
  point_lt a b = false -> point_le b a.
Proof.
  intros Ha Hb.
  unfold point_lt, point_le, float_eq, float_lt, float_le, SFeqb, SFltb, SFleb.
  destruct (SFcompare_antisym (snd a) (snd b) Ha Hb) as (c & -> & ->).
  destruct (Z.eqb_spec (fst a) (fst b)) as [Heq|Hne].
  - destruct c; cbn; try discriminate; by right.
  - intros H. apply Z.ltb_ge in H. left. lia.
Qed.

Lemma insert_sorted_points x l :
  float_nonneg (snd x) -> Forall (fun pt : point => float_nonneg (snd pt)) l ->
  Sorted point_le l -> Sorted point_le (insert_sorted point_lt x l).
Proof.
  intros Hx Hl Hs. induction Hs as [|y l Hs IH Hy]; cbn [insert_sorted].
  - by repeat constructor.
  - inversion Hl as [|? ? Hy0 Hl0]; subst.
    destruct (point_lt y x) eqn:Hlt.
    + constructor; [by apply IH|].
      destruct Hy as [|z l Hyz]; cbn [insert_sorted].
      * constructor. by apply point_lt_le.
      * destruct (point_lt z x); constructor; [exact Hyz | by apply point_lt_le].
    + constructor; [by constructor|]. constructor. by apply point_not_lt_le.
Qed.

Lemma sorted_points l :
  Forall (fun pt : point => float_nonneg (snd pt)) l -> Sorted point_le (sorted point_lt l).
Proof.
  induction 1 as [|x l Hx Hl IH]; cbn [sorted fold_right]; [constructor|].
  apply insert_sorted_points; [exact Hx | | exact IH].
  eapply Permutation_Forall; [symmetry; apply sorted_perm | exact Hl].
Qed.

(** X21: [extract_timeseries_data] orders the pairs as tuples: by
    timestamp, and pairs with the same timestamp by latency, so that each
    pair is at most the next one. *)
Theorem timeseries_sorted_as_tuples (mx : nat) (output : str) :
  exists data,
    extract_timeseries_data mx output = Ok data /\ Sorted point_le data.
Proof.
  eexists. split; [apply extract_timeseries_data_eq|].
  apply sorted_points. apply omap_Forall. intros g pt Hg Hpt.
  apply findall_update_groups in Hg as (ts & lat & -> & Hts & Hlat).
  simpl in Hpt.
  destruct (py_int mx ts) as [t|] eqn:Ht; [|discriminate].
  destruct (py_float lat) as [f|] eqn:Hf; [|discriminate].
  injection Hpt as <-. cbn [snd]. eapply py_float_captured; eauto.
Qed.
